(** * DiHydrogen: GPU runtime device binding and the CPU tensor

    A shallow embedding of

    - [src/gpu/rocm/runtime.cpp]: the process-wide GPU runtime, its
      environment probes ([guess_local_rank], [guess_local_size],
      [check_bool_cstr]), the device-binding heuristic
      ([get_reasonable_default_gpu_id]) and [init_runtime];
    - [include/h2/tensor/tensor_cpu.hpp]: the CPU specialisation of
      [Tensor], with [empty], [resize], [data], [contiguous], [view]
      and [unview].

    C++ [int] values are integers in [Z] restricted to the 32-bit range;
    an operation the language leaves undefined (signed overflow, division
    by zero, an unrepresentable [atoi]) has outcome [None] / [Undefined].
    [std::terminate] is the outcome [Terminated], a thrown [H2Exception]
    is the outcome [Throw]. *)

From stdpp Require Import base numbers option list strings gmap.
From Stdlib Require Import ZArith Ascii String Lia.

Open Scope Z_scope.

(** ** C++ [int] arithmetic *)

Module CInt.

Definition INT_MIN : Z := - 2 ^ 31.
Definition INT_MAX : Z := 2 ^ 31 - 1.

Definition in_range (z : Z) : bool := (INT_MIN <=? z) && (z <=? INT_MAX).

(** The value when it is representable, undefined behaviour otherwise. *)
Definition checked (z : Z) : option Z := if in_range z then Some z else None.

Definition add (a b : Z) : option Z := checked (a + b).
Definition sub (a b : Z) : option Z := checked (a - b).

(** [a / b]: truncation toward zero; no behaviour for a zero divisor. *)
Definition div (a b : Z) : option Z :=
  if b =? 0 then None else checked (Z.quot a b).

(** [a % b]: the sign follows the dividend; undefined whenever [a / b] is. *)
Definition rem (a b : Z) : option Z :=
  if b =? 0 then None
  else if in_range (Z.quot a b) then Some (Z.rem a b) else None.

End CInt.

(** ** [<cstdlib>]: [std::atoi] and [std::getenv] *)

Module CStdlib.

(** [isspace] in the "C" locale: space, \t, \n, \v, \f, \r. *)
Definition isspace (c : ascii) : bool :=
  let n := nat_of_ascii c in
  (n =? 32)%nat || ((9 <=? n)%nat && (n <=? 13)%nat).

Definition digit_of (c : ascii) : option Z :=
  let n := Z.of_nat (nat_of_ascii c) in
  if (48 <=? n) && (n <=? 57) then Some (n - 48) else None.

Fixpoint skip_space (s : string) : string :=
  match s with
  | String c s' => if isspace c then skip_space s' else s
  | EmptyString => s
  end.

(** The longest prefix of decimal digits, read in base ten. *)
Fixpoint digits_value (acc : Z) (s : string) : Z :=
  match s with
  | String c s' =>
      match digit_of c with
      | Some d => digits_value (10 * acc + d) s'
      | None => acc
      end
  | EmptyString => acc
  end.

(** The integer [atoi] denotes: white space, an optional sign, digits. *)
Definition atoi_value (s : string) : Z :=
  match skip_space s with
  | String "-"%char r => - digits_value 0 r
  | String "+"%char r => digits_value 0 r
  | r => digits_value 0 r
  end.

(** [std::atoi]: undefined when the value does not fit an [int]. *)
Definition atoi (s : string) : option Z := CInt.checked (atoi_value s).

(** [std::getenv]: the process environment is a finite map; an absent
    variable is the null pointer. *)
Definition getenv (env : gmap string string) (name : string) : option string :=
  env !! name.

Definition strlen (s : string) : nat := String.length s.

(** [str[i]]: the terminating NUL at and past the end of the string. *)
Definition char_at (s : string) (i : nat) : ascii :=
  match String.get i s with
  | Some c => c
  | None => Ascii.zero
  end.

End CStdlib.

(** ** The GPU runtime, [src/gpu/rocm/runtime.cpp] *)

Module Runtime.
Import CStdlib.

(** *** The logging facade and the HIP driver *)

Inductive log_level := INFO | WARN | ERROR.

Inductive fmt_arg :=
| ArgInt (z : Z)
| ArgStr (s : string).

(** One call of [H2_GPU_INFO], [H2_GPU_WARN] or [H2_GPU_ERROR]: the
    severity, the format string as written, and its arguments. *)
Record log_entry := LogEntry {
  entry_level : log_level;
  entry_fmt : string;
  entry_args : list fmt_arg
}.

Inductive hipError_t := hipSuccess | hipErrorInvalidDevice.

(** The driver calls the runtime makes, in program order. *)
Inductive hip_call :=
| HipInit (flags : Z)
| HipGetDeviceCount
| HipGetDevice
| HipSetDevice (id : Z)
| HipGetDeviceProperties (id : Z).

(** What the process cannot change: its environment and the devices the
    driver lets it see. *)
Record world := World {
  environ : gmap string string;
  visible_devices : Z;
  props_name : Z -> string;
  props_pciBusID : Z -> Z
}.

(** What the runtime changes: the file-scope flag [initialized_], the
    driver's active device, and the observable traces. *)
Record rt_state := RtState {
  initialized_ : bool;
  active_device : Z;
  driver_trace : list hip_call;
  log : list log_entry
}.

Definition initial_state : rt_state :=
  {| initialized_ := false; active_device := 0;
     driver_trace := []; log := [] |}.

Inductive result (A : Type) :=
| Ok (a : A) (s : rt_state)
| Terminated (s : rt_state)
| Undefined.
Arguments Ok {A} a s.
Arguments Terminated {A} s.
Arguments Undefined {A}.

Definition M (A : Type) : Type := rt_state -> result A.

#[global] Instance M_ret : MRet M := fun A a s => Ok a s.

#[global] Instance M_bind : MBind M := fun A B f m s =>
  match m s with
  | Ok a s' => f a s'
  | Terminated s' => Terminated s'
  | Undefined => Undefined
  end.

(** An [int] expression whose value may be undefined. *)
Definition eval {A} (o : option A) : M A := fun s =>
  match o with
  | Some a => Ok a s
  | None => Undefined
  end.

Definition emit (l : log_level) (f : string) (a : list fmt_arg) : M unit :=
  fun s => Ok tt {| initialized_ := initialized_ s;
                    active_device := active_device s;
                    driver_trace := driver_trace s;
                    log := log s ++ [LogEntry l f a] |}.

Definition H2_GPU_INFO := emit INFO.
Definition H2_GPU_WARN := emit WARN.
Definition H2_GPU_ERROR := emit ERROR.

Definition terminate {A} : M A := fun s => Terminated s.

Definition record_call (c : hip_call) : M unit :=
  fun s => Ok tt {| initialized_ := initialized_ s;
                    active_device := active_device s;
                    driver_trace := driver_trace s ++ [c];
                    log := log s |}.

Definition get_flag : M bool := fun s => Ok (initialized_ s) s.

Definition set_flag (b : bool) : M unit :=
  fun s => Ok tt {| initialized_ := b;
                    active_device := active_device s;
                    driver_trace := driver_trace s;
                    log := log s |}.

Definition get_active : M Z := fun s => Ok (active_device s) s.

Definition set_active (id : Z) : M unit :=
  fun s => Ok tt {| initialized_ := initialized_ s;
                    active_device := id;
                    driver_trace := driver_trace s;
                    log := log s |}.

(** Modelled from the spec: [H2_CHECK_HIP] is declared outside the source
    at hand; it turns a status other than success into the fatal path,
    logged at ERROR severity before the process is terminated. *)
Definition H2_CHECK_HIP (status : hipError_t) : M unit :=
  match status with
  | hipSuccess => mret tt
  | _ => H2_GPU_ERROR "HIP error" [];; terminate
  end.

Definition dquote : string := String (ascii_of_nat 34) EmptyString.

Section WithWorld.
Variable w : world.

Definition valid_device (id : Z) : bool :=
  (0 <=? id) && (id <? visible_devices w).

(** The driver contract assumed of HIP: initialisation and the count and
    current-device queries succeed; a device id is accepted exactly
    when it names a visible device. Out-parameters are returned next
    to the status. *)
Definition hipInit (flags : Z) : M hipError_t :=
  record_call (HipInit flags);; mret hipSuccess.

Definition hipGetDeviceCount : M (hipError_t * Z) :=
  record_call HipGetDeviceCount;; mret (hipSuccess, visible_devices w).

Definition hipGetDevice : M (hipError_t * Z) :=
  record_call HipGetDevice;;
  dev ← get_active;
  mret (hipSuccess, dev).

Definition hipSetDevice (id : Z) : M hipError_t :=
  record_call (HipSetDevice id);;
  if valid_device id
  then set_active id;; mret hipSuccess
  else mret hipErrorInvalidDevice.

Definition hipGetDeviceProperties (id : Z) : M (hipError_t * (string * Z)) :=
  record_call (HipGetDeviceProperties id);;
  if valid_device id
  then mret (hipSuccess, (props_name w id, props_pciBusID w id))
  else mret (hipErrorInvalidDevice, (EmptyString, 0)).

(** *** Environment probes *)

Definition or_getenv (env : option string) (name : string) : option string :=
  match env with
  | Some v => Some v
  | None => getenv (environ w) name
  end.

Definition guess_local_rank : option Z :=
  let env := getenv (environ w) "FLUX_TASK_LOCAL_ID" in
  let env := or_getenv env "SLURM_LOCALID" in
  let env := or_getenv env "OMPI_COMM_WORLD_LOCAL_RANK" in
  let env := or_getenv env "MV2_COMM_WORLD_LOCAL_RANK" in
  let env := or_getenv env "MPI_LOCALRANKID" in
  match env with
  | Some v => atoi v
  | None => Some (-1)
  end.

Definition guess_local_size_mpi : option Z :=
  let env := getenv (environ w) "SLURM_NTASKS_PER_NODE" in
  let env := or_getenv env "OMPI_COMM_WORLD_LOCAL_SIZE" in
  let env := or_getenv env "MV2_COMM_WORLD_LOCAL_SIZE" in
  let env := or_getenv env "MPI_LOCALNRANKS" in
  match env with
  | Some v => atoi v
  | None => Some (-1)
  end.

Definition guess_local_size : option Z :=
  match getenv (environ w) "FLUX_JOB_SIZE" with
  | Some flux_size =>
      match getenv (environ w) "FLUX_JOB_NNODES" with
      | Some nnodes =>
          int_nnodes ← atoi nnodes;
          size ← atoi flux_size;
          sum ← CInt.add size int_nnodes;
          num ← CInt.sub sum 1;
          CInt.div num int_nnodes
      | None => guess_local_size_mpi
      end
  | None => guess_local_size_mpi
  end.

Definition check_bool_cstr (str : option string) : bool :=
  match str with
  | None => false
  | Some s => negb (strlen s =? 0)%nat && negb (Ascii.eqb (char_at s 0) "0")
  end.

Definition force_device_zero : bool :=
  check_bool_cstr (getenv (environ w) "H2_SELECT_DEVICE_0").

Definition force_round_robin : bool :=
  check_bool_cstr (getenv (environ w) "H2_SELECT_DEVICE_RR").

Definition error (msg : string) : M unit :=
  H2_GPU_ERROR msg [];; terminate.

(** *** The runtime entry points *)

Definition num_gpus : M Z :=
  '(status, count) ← hipGetDeviceCount;
  H2_CHECK_HIP status;;
  mret count.

Definition current_gpu : M Z :=
  '(status, dev) ← hipGetDevice;
  H2_CHECK_HIP status;;
  mret dev.

Definition set_gpu (id : Z) : M unit :=
  H2_GPU_INFO "setting device to id={}" [ArgInt id];;
  status ← hipSetDevice id;
  H2_CHECK_HIP status.

Definition get_reasonable_default_gpu_id : M Z :=
  if force_device_zero then mret 0
  else
    lrank ← eval guess_local_rank;
    lsize ← eval guess_local_size;
    if lrank <? 0 then
      H2_GPU_WARN "Could not guess local rank; setting device 0." [];;
      mret 0
    else if lsize <? 0 then
      H2_GPU_WARN "Could not guess local size; setting device 0." [];;
      mret 0
    else
      ngpus ← num_gpus;
      if force_round_robin then eval (CInt.rem lrank ngpus)
      else if lsize <=? ngpus then mret lrank
      else
        error "More local ranks than (visible) GPUs.";;
        mret (-1).

Definition set_reasonable_default_gpu : M unit :=
  id ← get_reasonable_default_gpu_id;
  set_gpu id.

Definition gpu_info_fmt : string :=
  "GPU ID {}: name=" ++ dquote ++ "{}" ++ dquote ++ ", pci={:#x}".

Definition log_gpu_info (gpu_id : Z) : M unit :=
  '(status, props) ← hipGetDeviceProperties gpu_id;
  H2_CHECK_HIP status;;
  H2_GPU_INFO gpu_info_fmt
    [ArgInt gpu_id; ArgStr (fst props); ArgInt (snd props)].

Definition init_runtime : M unit :=
  ini ← get_flag;
  (if negb ini then
     H2_GPU_INFO "initializing gpu runtime" [];;
     status ← hipInit 0;
     H2_CHECK_HIP status;;
     n ← num_gpus;
     H2_GPU_INFO "found {} devices" [ArgInt n];;
     set_reasonable_default_gpu;;
     set_flag true
   else
     dev ← current_gpu;
     H2_GPU_INFO "H2 GPU already initialized; current gpu={}" [ArgInt dev]);;
  dev ← current_gpu;
  log_gpu_info dev.

Definition finalize_runtime : M unit :=
  ini ← get_flag;
  if negb ini then mret tt
  else
    H2_GPU_INFO "finalizing gpu runtime" [];;
    set_flag false.

Definition runtime_is_initialized : M bool := get_flag.

Definition runtime_is_finalized : M bool :=
  ini ← get_flag; mret (negb ini).

End WithWorld.

(** *** Observations on outcomes *)

(** The device id the binding heuristic returns, when it returns. *)
Definition chosen_device (r : result Z) : option Z :=
  match r with
  | Ok d _ => Some d
  | _ => None
  end.

(** The driver's active device once a call has returned. *)
Definition bound_device {A} (r : result A) : option Z :=
  match r with
  | Ok _ s => Some (active_device s)
  | _ => None
  end.

Definition with_call (c : hip_call) (s : rt_state) : rt_state :=
  {| initialized_ := initialized_ s; active_device := active_device s;
     driver_trace := driver_trace s ++ [c]; log := log s |}.

Definition with_log (e : log_entry) (s : rt_state) : rt_state :=
  {| initialized_ := initialized_ s; active_device := active_device s;
     driver_trace := driver_trace s; log := log s ++ [e] |}.

Definition with_device (d : Z) (s : rt_state) : rt_state :=
  {| initialized_ := initialized_ s; active_device := d;
     driver_trace := driver_trace s; log := log s |}.

Definition with_flag (b : bool) (s : rt_state) : rt_state :=
  {| initialized_ := b; active_device := active_device s;
     driver_trace := driver_trace s; log := log s |}.

Definition warn_rank : log_entry :=
  LogEntry WARN "Could not guess local rank; setting device 0." [].
Definition warn_size : log_entry :=
  LogEntry WARN "Could not guess local size; setting device 0." [].
Definition err_oversubscribed : log_entry :=
  LogEntry ERROR "More local ranks than (visible) GPUs." [].


Definition gpu_info_entry (w : world) (d : Z) : log_entry :=
  LogEntry INFO gpu_info_fmt
    [ArgInt d; ArgStr (props_name w d); ArgInt (props_pciBusID w d)].

Definition already_entry (d : Z) : log_entry :=
  LogEntry INFO "H2 GPU already initialized; current gpu={}" [ArgInt d].

Definition is_init_call (c : hip_call) : bool :=
  match c with HipInit _ => true | _ => false end.

Definition is_bind_call (c : hip_call) : bool :=
  match c with HipSetDevice _ => true | _ => false end.

Definition count_calls (p : hip_call -> bool) (t : list hip_call) : nat :=
  List.length (List.filter p t).

(** The state in which a first [init_runtime] reaches the binding
    heuristic: two messages logged, the driver initialised and asked for
    the device count. *)
Definition binding_entry (w : world) (s : rt_state) : rt_state :=
  with_log (LogEntry INFO "found {} devices" [ArgInt (visible_devices w)])
    (with_call HipGetDeviceCount
       (with_call (HipInit 0)
          (with_log (LogEntry INFO "initializing gpu runtime" []) s))).

Definition setting_entry (d : Z) : log_entry :=
  LogEntry INFO "setting device to id={}" [ArgInt d].

(** *** The readings of the environment the specification gives *)

(** "Truthy string, i.e. non-empty and not literal 0". *)
Definition spec_truthy (v : string) : bool :=
  negb (String.eqb v "") && negb (String.eqb v "0").

(** "Truthy = present, non-empty, first character not 0". *)
Definition first_char_truthy (v : string) : Prop :=
  exists c rest, v = String c rest /\ c <> "0"%char.

(** ceil(a / b) over the integers. *)
Definition ceil_div (a b : Z) : Z := - ((- a) / b).

(** The value of the first variable of [names] that is present. *)
Fixpoint first_present (env : gmap string string) (names : list string)
  : option string :=
  match names with
  | [] => None
  | n :: rest =>
      match env !! n with
      | Some v => Some v
      | None => first_present env rest
      end
  end.

Definition mpi_size_variables : list string :=
  ["SLURM_NTASKS_PER_NODE"; "OMPI_COMM_WORLD_LOCAL_SIZE";
   "MV2_COMM_WORLD_LOCAL_SIZE"; "MPI_LOCALNRANKS"]%string.

(** The state a call leaves behind. *)
Definition state_after {A} (r : result A) : rt_state :=
  match r with
  | Ok _ s => s
  | Terminated s => s
  | Undefined => initial_state
  end.

(** The local size as the specification words it: the flux pair decides
    when both variables are present with positive integer values, and
    otherwise the MPI size variables are consulted in their fixed order. *)
Definition mpi_local_size (env : gmap string string) : option Z :=
  match first_present env mpi_size_variables with
  | Some v => atoi v
  | None => Some (-1)
  end.

Definition claimed_local_size (w : world) : option Z :=
  match environ w !! "FLUX_JOB_SIZE"%string,
        environ w !! "FLUX_JOB_NNODES"%string with
  | Some js, Some nn =>
      if (0 <? atoi_value js) && (0 <? atoi_value nn)
      then Some (ceil_div (atoi_value js) (atoi_value nn))
      else mpi_local_size (environ w)
  | _, _ => mpi_local_size (environ w)
  end.

(** *** Concrete launch scenarios *)

Definition node (vars : list (string * string)) (ngpus : Z) : world :=
  {| environ := list_to_map vars;
     visible_devices := ngpus;
     props_name := fun _ => "AMD Instinct MI250X"%string;
     props_pciBusID := fun d => 193 + 5 * d |}.

Definition scenario_rr_rank_only : world :=
  node [("H2_SELECT_DEVICE_RR", "1"); ("OMPI_COMM_WORLD_LOCAL_RANK", "5")]%string 4.

Definition scenario_rr_sized : world :=
  node [("H2_SELECT_DEVICE_RR", "1"); ("OMPI_COMM_WORLD_LOCAL_RANK", "5");
        ("OMPI_COMM_WORLD_LOCAL_SIZE", "8")]%string 4.

Definition scenario_slurm (ngpus : Z) : world :=
  node [("SLURM_LOCALID", "2"); ("SLURM_NTASKS_PER_NODE", "4")]%string ngpus.

Definition scenario_zero_prefixed : world :=
  node [("H2_SELECT_DEVICE_0", "01"); ("SLURM_LOCALID", "2");
        ("SLURM_NTASKS_PER_NODE", "4")]%string 4.

Definition scenario_force_zero : world :=
  node [("H2_SELECT_DEVICE_0", "1"); ("H2_SELECT_DEVICE_RR", "1");
        ("SLURM_LOCALID", "2"); ("SLURM_NTASKS_PER_NODE", "4")]%string 4.

Definition scenario_flux : world :=
  node [("FLUX_JOB_SIZE", "10"); ("FLUX_JOB_NNODES", "4");
        ("SLURM_NTASKS_PER_NODE", "8")]%string 4.

Definition scenario_flux_zero_size : world :=
  node [("FLUX_JOB_SIZE", "0"); ("FLUX_JOB_NNODES", "2");
        ("SLURM_NTASKS_PER_NODE", "4")]%string 4.

Definition scenario_flux_partial : world :=
  node [("FLUX_JOB_SIZE", "10"); ("OMPI_COMM_WORLD_LOCAL_SIZE", "6");
        ("MPI_LOCALNRANKS", "3")]%string 4.

(** A local rank that is no device: rank 5 of 4 on a node with 4 devices,
    and the fourth task of an unbalanced flux job (5 tasks on 2 nodes) on
    a node with 3 devices. *)
Definition scenario_rank_beyond_devices : world :=
  node [("SLURM_LOCALID", "5"); ("SLURM_NTASKS_PER_NODE", "4")]%string 4.

Definition scenario_flux_unbalanced : world :=
  node [("FLUX_TASK_LOCAL_ID", "3"); ("FLUX_JOB_SIZE", "5");
        ("FLUX_JOB_NNODES", "2")]%string 3.

Definition hip_error_entry : log_entry := LogEntry ERROR "HIP error" [].

(** The last line logged by a call that terminated the process. *)
Definition verdict_after {A} (r : result A) : option log_entry :=
  match r with
  | Terminated s => last (log s)
  | _ => None
  end.

Definition slurm_bound_state : rt_state :=
  Eval vm_compute in state_after (init_runtime (scenario_slurm 4) initial_state).

End Runtime.

(** ** The CPU tensor, [include/h2/tensor/tensor_cpu.hpp] *)

Module ViewType.
(** [ViewType::None] marks a tensor that owns its storage, [Mutable] and
    [Const] a tensor that aliases the storage of another. *)
Inductive t := None | Mutable | Const.

Definition eqb (a b : t) : bool :=
  match a, b with
  | None, None | Mutable, Mutable | Const, Const => true
  | _, _ => false
  end.
End ViewType.

Module TensorCPU.

Inductive Device := CPU | GPU.

(** One entry of a [CoordTuple]: the full extent, or the range [lo, hi). *)
Inductive DimensionRange :=
| ALL
| Range (lo hi : nat).

Inductive exception :=
| H2Exception (what : string)
| AssertionFailure (what : string).

Inductive outcome (A : Type) :=
| Return (a : A)
| Throw (e : exception).
Arguments Return {A} a.
Arguments Throw {A} e.

Inductive access := ReadWrite | ReadOnly.

(** A typed pointer into a buffer: [T*] or [const T*]; [address] is the
    buffer handle and the element offset, absent for the null pointer. *)
Record pointer := Pointer {
  pointer_access : access;
  address : option (nat * nat)
}.

(** *** Index tuples *)

(** Modelled from the spec: the tuple types of [tensor_types.hpp] are
    ordered sequences with a size query and a resize that truncates or
    pads. *)
Definition set_size {A} (pad : A) (n : nat) (l : list A) : list A :=
  take n l ++ replicate (n - List.length l) pad.

(** Modelled from the spec: [TuplePad<CoordTuple>(n, ALL)], the tuple of
    rank [n] with every entry set to the sentinel. *)
Definition TuplePad {A} (n : nat) (x : A) : list A := replicate n x.

Definition product (shape : list nat) : nat := foldr Nat.mul 1%nat shape.

(** A range that selects a single index collapses its dimension. *)
Definition is_trivial (r : DimensionRange) : bool :=
  match r with
  | ALL => false
  | Range lo hi => (hi =? lo + 1)%nat
  end.

Definition range_lo (r : DimensionRange) : nat :=
  match r with
  | ALL => 0%nat
  | Range lo _ => lo
  end.

(** Modelled from the spec: [filter_by_trivial] drops the entries of the
    dimensions a [CoordTuple] collapses to a single index; dimensions the
    tuple has no entry for are kept. *)
Fixpoint filter_by_trivial {A} (coords : list DimensionRange) (l : list A)
  : list A :=
  match coords, l with
  | [], _ => l
  | _, [] => []
  | c :: cs, x :: xs =>
      if is_trivial c then filter_by_trivial cs xs
      else x :: filter_by_trivial cs xs
  end.

(** Modelled from the spec: [get_range_shape], the shape a [CoordTuple]
    carves out: the full extent for [ALL], [hi - lo] for a sub-range, and
    no dimension at all for a single index. *)
Fixpoint get_range_shape (coords : list DimensionRange) (shape : list nat)
  : list nat :=
  match coords, shape with
  | [], _ => shape
  | _, [] => []
  | c :: cs, d :: ds =>
      if is_trivial c then get_range_shape cs ds
      else match c with
           | ALL => d
           | Range lo hi => (hi - lo)%nat
           end :: get_range_shape cs ds
  end.

(** *** Strided memory *)

(** Modelled from the spec: the default contiguous strides; the last
    dimension has stride 1 and each preceding stride is the extent of the
    next dimension times the stride of the next dimension. *)
Fixpoint get_contiguous_strides (shape : list nat) : list nat :=
  match shape with
  | [] => []
  | _ :: rest =>
      match get_contiguous_strides rest with
      | s :: ss => (List.hd 1%nat rest * s)%nat :: s :: ss
      | [] => [1%nat]
      end
  end.

(** Row-major packing in closed form: the stride of a dimension is the
    number of elements of one slice along it. *)
Fixpoint row_major_strides (shape : list nat) : list nat :=
  match shape with
  | [] => []
  | _ :: rest => product rest :: row_major_strides rest
  end.

(** Modelled from the spec: [are_strides_contiguous] holds exactly when
    the strides are the default contiguous strides of the shape. *)
Definition are_strides_contiguous (shape strides : list nat) : bool :=
  bool_decide (strides = get_contiguous_strides shape).

(** Modelled from the spec: [StridedMemory<T, Device::CPU>] of
    [strided_memory.hpp]; either the sole owner of a buffer or a
    non-owning alias into the buffer of another, at a base offset. *)
Record StridedMemory := {
  raw_buffer : option nat;
  owns_buffer : bool;
  mem_offset : nat;
  mem_strides : list nat;
  mem_shape : list nat
}.

(** The base offset of a sub-view: the sum of [lo * stride] over the
    dimensions the [CoordTuple] has an entry for. *)
Fixpoint get_range_start (coords : list DimensionRange) (strides : list nat)
  : nat :=
  match coords, strides with
  | c :: cs, s :: ss => (range_lo c * s + get_range_start cs ss)%nat
  | _, _ => 0%nat
  end.

Definition StridedMemory_default : StridedMemory :=
  {| raw_buffer := None; owns_buffer := false; mem_offset := 0;
     mem_strides := []; mem_shape := [] |}.

Definition StridedMemory_of_buffer (buffer : option (nat * nat))
    (shape strides : list nat) : StridedMemory :=
  {| raw_buffer := fst <$> buffer; owns_buffer := false;
     mem_offset := from_option snd 0%nat buffer;
     mem_strides := strides; mem_shape := shape |}.

Definition StridedMemory_view (base : StridedMemory)
    (coords : list DimensionRange) : StridedMemory :=
  {| raw_buffer := raw_buffer base; owns_buffer := false;
     mem_offset := (mem_offset base + get_range_start coords (mem_strides base))%nat;
     mem_strides := filter_by_trivial coords (mem_strides base);
     mem_shape := get_range_shape coords (mem_shape base) |}.

Definition memory_data (a : access) (m : StridedMemory) : pointer :=
  {| pointer_access := a;
     address := b ← raw_buffer m; Some (b, mem_offset m) |}.

Section Elements.
Context {T : Type}.

(** The buffers alive, by handle; a cell never written holds no
    determinate value. *)
Definition heap : Type := gmap nat (list (option T)).

(** Constructing from a shape allocates [product shape] elements in a
    buffer distinct from every live one. *)
Definition StridedMemory_of_shape (shape : list nat) (h : heap)
  : StridedMemory * heap :=
  let b := fresh (dom h) in
  ({| raw_buffer := Some b; owns_buffer := true; mem_offset := 0;
      mem_strides := get_contiguous_strides shape; mem_shape := shape |},
   <[b := replicate (product shape) None]> h).

(** Destroying a memory frees the buffer it owns, and only that. *)
Definition StridedMemory_destroy (m : StridedMemory) (h : heap) : heap :=
  if owns_buffer m then
    match raw_buffer m with
    | Some b => delete b h
    | None => h
    end
  else h.
End Elements.

(** *** The tensor *)

Section Tensor.
Context {T DimensionType : Type}.

(** What a [DimensionTypeTuple] is padded with when it grows. *)
Variable dim_pad : DimensionType.

(** Whether [H2_ASSERT_DEBUG] is compiled in. *)
Variable debug_build : bool.

(** The members of [BaseTensor<T>] followed by [tensor_memory]. *)
Record Tensor := {
  tensor_shape : list nat;
  tensor_dim_types : list DimensionType;
  tensor_view_type : ViewType.t;
  tensor_memory : StridedMemory
}.

(** Modelled from the spec: [BaseTensor::is_view]; a tensor is a view
    unless its view type is [ViewType::None]. *)
Definition is_view (t : Tensor) : bool :=
  negb (ViewType.eqb (tensor_view_type t) ViewType.None).

(** Modelled from the spec: [H2_ASSERT_DEBUG] checks its condition in
    debug builds only. *)
Definition H2_ASSERT_DEBUG (cond : bool) (msg : string) : outcome unit :=
  if debug_build && negb cond then Throw (AssertionFailure msg)
  else Return tt.

(** [Tensor(ShapeTuple, DimensionTypeTuple)] *)
Definition Tensor_of_shape (shape_ : list nat)
    (dim_types_ : list DimensionType) (h : @heap T) : Tensor * heap :=
  let '(m, h') := StridedMemory_of_shape shape_ h in
  ({| tensor_shape := shape_; tensor_dim_types := dim_types_;
      tensor_view_type := ViewType.None; tensor_memory := m |}, h').

(** [Tensor()] *)
Definition Tensor_default (h : @heap T) : Tensor * heap :=
  Tensor_of_shape [] [] h.

(** [Tensor(T* buffer, ...)] *)
Definition Tensor_of_buffer (buffer : option (nat * nat))
    (shape_ : list nat) (dim_types_ : list DimensionType)
    (strides_ : list nat) : Tensor :=
  {| tensor_shape := shape_; tensor_dim_types := dim_types_;
     tensor_view_type := ViewType.Mutable;
     tensor_memory := StridedMemory_of_buffer buffer shape_ strides_ |}.

(** [Tensor(const T* buffer, ...)] *)
Definition Tensor_of_const_buffer (buffer : option (nat * nat))
    (shape_ : list nat) (dim_types_ : list DimensionType)
    (strides_ : list nat) : Tensor :=
  {| tensor_shape := shape_; tensor_dim_types := dim_types_;
     tensor_view_type := ViewType.Const;
     tensor_memory := StridedMemory_of_buffer buffer shape_ strides_ |}.

(** The private constructor for views. *)
Definition Tensor_view_of (view_type_ : ViewType.t) (mem_ : StridedMemory)
    (shape_ : list nat) (dim_types_ : list DimensionType)
    (coords : list DimensionRange) : Tensor :=
  {| tensor_shape := shape_; tensor_dim_types := dim_types_;
     tensor_view_type := view_type_;
     tensor_memory := StridedMemory_view mem_ coords |}.

Definition strides (t : Tensor) : list nat := mem_strides (tensor_memory t).

Definition is_contiguous (t : Tensor) : bool :=
  are_strides_contiguous (tensor_shape t) (strides t).

Definition get_device (t : Tensor) : Device := CPU.

Definition empty (t : Tensor) (h : @heap T) : Tensor * heap :=
  let h' := StridedMemory_destroy (tensor_memory t) h in
  ({| tensor_shape := [];
      tensor_dim_types := [];
      tensor_view_type :=
        if is_view t then ViewType.None else tensor_view_type t;
      tensor_memory := StridedMemory_default |}, h').

(** [resize(ShapeTuple)]: the new memory is constructed while the old
    one is alive, which the assignment then destroys. *)
Definition resize (t : Tensor) (new_shape : list nat) (h : @heap T)
  : outcome (Tensor * heap) :=
  if is_view t then Throw (H2Exception "Cannot resize a view")
  else if (List.length (tensor_shape t) <? List.length new_shape)%nat then
    Throw (H2Exception "Must provide dimension types to resize larger")
  else
    let '(m, h1) := StridedMemory_of_shape new_shape h in
    let h2 := StridedMemory_destroy (tensor_memory t) h1 in
    Return
      ({| tensor_shape := new_shape;
          tensor_dim_types :=
            set_size dim_pad (List.length new_shape) (tensor_dim_types t);
          tensor_view_type := tensor_view_type t;
          tensor_memory := m |}, h2).

(** [resize(ShapeTuple, DimensionTypeTuple)] *)
Definition resize_with_dim_types (t : Tensor) (new_shape : list nat)
    (new_dim_types : list DimensionType) (h : @heap T)
  : outcome (Tensor * heap) :=
  if is_view t then Throw (H2Exception "Cannot resize a view")
  else
    let '(m, h1) := StridedMemory_of_shape new_shape h in
    let h2 := StridedMemory_destroy (tensor_memory t) h1 in
    Return
      ({| tensor_shape := new_shape;
          tensor_dim_types := new_dim_types;
          tensor_view_type := tensor_view_type t;
          tensor_memory := m |}, h2).

(** [T* data()] *)
Definition data (t : Tensor) : outcome pointer :=
  if ViewType.eqb (tensor_view_type t) ViewType.Const then
    Throw (H2Exception "Cannot access non-const buffer of const view")
  else Return (memory_data ReadWrite (tensor_memory t)).

(** [const T* data() const] *)
Definition data_const (t : Tensor) : outcome pointer :=
  Return (memory_data ReadOnly (tensor_memory t)).

Definition const_data (t : Tensor) : outcome pointer :=
  Return (memory_data ReadOnly (tensor_memory t)).

(** [view(CoordTuple)] *)
Definition view_coords (t : Tensor) (coords : list DimensionRange) : Tensor :=
  Tensor_view_of ViewType.Mutable (tensor_memory t)
    (get_range_shape coords (tensor_shape t))
    (filter_by_trivial coords (tensor_dim_types t))
    coords.

(** [view()] *)
Definition view (t : Tensor) : Tensor :=
  view_coords t (TuplePad (List.length (tensor_shape t)) ALL).

(** [const_view(CoordTuple)] *)
Definition const_view_coords (t : Tensor) (coords : list DimensionRange)
  : Tensor :=
  Tensor_view_of ViewType.Const (tensor_memory t)
    (get_range_shape coords (tensor_shape t))
    (filter_by_trivial coords (tensor_dim_types t))
    coords.

(** [const_view()] *)
Definition const_view (t : Tensor) : Tensor :=
  const_view_coords t (TuplePad (List.length (tensor_shape t)) ALL).

Definition contiguous (t : Tensor) : outcome Tensor :=
  if is_contiguous t then Return (view t)
  else Throw (H2Exception "contiguous() not implemented").

Definition unview (t : Tensor) (h : @heap T) : outcome (Tensor * heap) :=
  match H2_ASSERT_DEBUG (is_view t) "Must be a view to unview" with
  | Throw e => Throw e
  | Return _ => Return (empty t h)
  end.

(** *** Tensor objects *)

(** The tensors alive, by address, next to the buffers alive: a view is
    an object of its own that shares a buffer with its parent. *)
Record program := {
  objects : gmap nat Tensor;
  buffers : @heap T
}.

(** [this->view()]: a [new] tensor; [None] for a dangling [this]. *)
Definition new_view (this : nat) (p : program) : option (nat * program) :=
  t ← objects p !! this;
  let v := fresh (dom (objects p)) in
  Some (v, {| objects := <[v := view t]> (objects p);
              buffers := buffers p |}).

(** [this->unview()] *)
Definition call_unview (this : nat) (p : program) : option (outcome program) :=
  t ← objects p !! this;
  Some match unview t (buffers p) with
       | Return (t', h') =>
           Return {| objects := <[this := t']> (objects p); buffers := h' |}
       | Throw e => Throw e
       end.

(** [auto* v = t->view(); v->unview();] *)
Definition view_then_unview (this : nat) (p : program)
  : option (outcome (nat * program)) :=
  '(v, p1) ← new_view this p;
  r ← call_unview v p1;
  Some match r with
       | Return p2 => Return (v, p2)
       | Throw e => Throw e
       end.

(** The messages with which the tensor reports a misuse of its API. *)
Definition usage_errors : list exception :=
  [H2Exception "Cannot resize a view";
   H2Exception "Must provide dimension types to resize larger";
   H2Exception "Cannot access non-const buffer of const view"].

(** A memory whose buffer, if it has one, is alive. *)
Definition memory_live (m : StridedMemory) (h : @heap T) : Prop :=
  forall b, raw_buffer m = Some b -> is_Some (h !! b).

(** What [resize] promises of an owner: the new shape, the strides of
    row-major packing, contiguity, and a buffer of its own that was not
    alive before the call and holds [product new_shape] cells. *)
Definition resized (t : Tensor) (h : @heap T) (new_shape : list nat)
    (t' : Tensor) (h' : @heap T) : Prop :=
  tensor_shape t' = new_shape /\
  strides t' = row_major_strides new_shape /\
  is_contiguous t' = true /\
  is_view t' = false /\
  exists b,
    raw_buffer (tensor_memory t') = Some b /\
    owns_buffer (tensor_memory t') = true /\
    mem_offset (tensor_memory t') = 0%nat /\
    h !! b = None /\
    (memory_live (tensor_memory t) h ->
     h' !! b = Some (replicate (product new_shape) None)).

(** The invariant of the data model: one dimension type per dimension. *)
Definition ranks_agree (t : Tensor) : Prop :=
  List.length (tensor_dim_types t) = List.length (tensor_shape t).

End Tensor.

(** *** Concrete tensors *)

Inductive dim_tag := Sample | Channel | Spatial.

(** A non-owning 2 x 3 alias over columns of a wider buffer. *)
Definition strided_alias : @Tensor dim_tag :=
  Tensor_of_buffer (Some (7%nat, 0%nat)) [2; 3]%nat [Sample; Channel] [4; 1]%nat.

Definition const_alias : @Tensor dim_tag :=
  Tensor_of_const_buffer (Some (7%nat, 0%nat)) [2; 3]%nat [Sample; Channel]
    [3; 1]%nat.

(** An owning 2 x 3 x 4 tensor of integers in an empty heap. *)
Definition owner_234 : @Tensor dim_tag * @heap Z :=
  Tensor_of_shape [2; 3; 4]%nat [Sample; Channel; Spatial] ∅.

Definition program_234 : @program Z dim_tag :=
  {| objects := {[ 5%nat := fst owner_234 ]}; buffers := snd owner_234 |}.

End TensorCPU.

(** ** The tensor [empty] leaves *)

Module TensorValues.
Import TensorCPU.

Definition null_tensor {D} : @Tensor D :=
  {| tensor_shape := []; tensor_dim_types := [];
     tensor_view_type := ViewType.None;
     tensor_memory := StridedMemory_default |}.

End TensorValues.

(** ** More of the runtime: probes and launch scenarios *)

Module RuntimeProbes.
Import CStdlib Runtime.

(** The variables [guess_local_rank] tries, in the order it tries them. *)
Definition rank_variables : list string :=
  ["FLUX_TASK_LOCAL_ID"; "SLURM_LOCALID"; "OMPI_COMM_WORLD_LOCAL_RANK";
   "MV2_COMM_WORLD_LOCAL_RANK"; "MPI_LOCALRANKID"]%string.

(** Which of the three outcomes a call had, and with which value. *)
Inductive verdict (A : Type) :=
| Returned (a : A)
| Died
| NoBehaviour.
Arguments Returned {A} a.
Arguments Died {A}.
Arguments NoBehaviour {A}.

Definition verdict_of {A} (r : result A) : verdict A :=
  match r with
  | Ok a _ => Returned a
  | Terminated _ => Died
  | Undefined => NoBehaviour
  end.

Definition finalized_entry : log_entry :=
  LogEntry INFO "finalizing gpu runtime" [].

Definition scenario_oversubscribed_rr : world :=
  node [("H2_SELECT_DEVICE_RR", "yes"); ("SLURM_LOCALID", "3");
        ("SLURM_NTASKS_PER_NODE", "8")]%string 2.

Definition scenario_bare : world := node [] 1.

Definition scenario_rank_shadowed : world :=
  node [("SLURM_LOCALID", ""); ("OMPI_COMM_WORLD_LOCAL_RANK", "3");
        ("MPI_LOCALRANKID", "1")]%string 4.

Definition scenario_flux_no_nodes : world :=
  node [("FLUX_TASK_LOCAL_ID", "0"); ("FLUX_JOB_SIZE", "8");
        ("FLUX_JOB_NNODES", "0")]%string 4.

Definition scenario_flux_no_nodes_forced : world :=
  node [("H2_SELECT_DEVICE_0", "1"); ("FLUX_TASK_LOCAL_ID", "0");
        ("FLUX_JOB_SIZE", "8"); ("FLUX_JOB_NNODES", "0")]%string 4.

Definition finalized_state : rt_state :=
  Eval vm_compute in state_after (finalize_runtime slurm_bound_state).

End RuntimeProbes.

(** ** The hostname flag, [src/utils/logging/hostname_pattern.hpp] *)

Module Hostname.

Inductive exception := runtime_error (what : string).

Inductive outcome (A : Type) :=
| Return (a : A)
| Throw (e : exception).
Arguments Return {A} a.
Arguments Throw {A} e.

(** The size of [buf] in [get_hostname_raw]. *)
Definition BUF_SIZE : nat := 1024.

(** What a call of [gethostname(buf, 1024)] leaves behind: its status and
    the bytes of [buf] as they are in memory afterwards. *)
Record gethostname_result := {
  status : Z;
  buf : list ascii
}.

(** [std::find(first, last, value)] over a range given as a list: the
    position of the first occurrence, the length of the range if none. *)
Fixpoint find (value : ascii) (range : list ascii) : nat :=
  match range with
  | [] => 0%nat
  | c :: rest => if Ascii.eqb c value then 0%nat else S (find value rest)
  end.

Definition get_hostname_raw (os : gethostname_result) : outcome string :=
  if negb (status os =? 0) then Throw (runtime_error "gethostname failed.")
  else
    let range := take BUF_SIZE (buf os) in
    let end_ := find Ascii.zero range in
    Return (string_of_list_ascii (take end_ range)).

(** [get_hostname]: the function-local static is initialised by the first
    call whose initialiser returns; an initialiser that throws leaves it
    uninitialised. The static is threaded as [cache]. *)
Definition get_hostname (os : gethostname_result) (cache : option string)
  : outcome string * option string :=
  match cache with
  | Some hostname => (Return hostname, cache)
  | None =>
      match get_hostname_raw os with
      | Return hostname => (Return hostname, Some hostname)
      | Throw e => (Throw e, None)
      end
  end.

(** [HostnameFlag::format]: the message and the time are not looked at;
    the hostname is appended to [dest]. *)
Definition format {Msg Tm : Type} (msg : Msg) (tm : Tm)
    (os : gethostname_result) (cache : option string) (dest : string)
  : outcome string * option string :=
  match get_hostname os cache with
  | (Return hostname, cache') => (Return (dest ++ hostname)%string, cache')
  | (Throw e, cache') => (Throw e, cache')
  end.

(** A host that reports [name], NUL-terminated, in front of whatever the
    buffer held. *)
Definition host_reporting (name : string) (garbage : list ascii)
  : gethostname_result :=
  {| status := 0;
     buf := list_ascii_of_string name ++ Ascii.zero :: garbage |}.

Definition host_failing (garbage : list ascii) : gethostname_result :=
  {| status := -1; buf := garbage |}.

End Hostname.

(** * Properties of the CPU tensor *)

Module TensorFacts.
Import TensorCPU.

Lemma contiguous_strides_cons d rest :
  get_contiguous_strides (d :: rest)
  = product rest :: get_contiguous_strides rest.
Proof.
  revert d. induction rest as [|n l IH]; intros d; [reflexivity|].
  change (get_contiguous_strides (d :: n :: l))
    with (match get_contiguous_strides (n :: l) with
          | s :: ss => (n * s)%nat :: s :: ss
          | [] => [1%nat]
          end).
  rewrite (IH n). reflexivity.
Qed.

Lemma contiguous_strides_row_major shape :
  get_contiguous_strides shape = row_major_strides shape.
Proof.
  induction shape as [|d rest IH]; [reflexivity|].
  rewrite contiguous_strides_cons, IH. reflexivity.
Qed.

Lemma contiguous_strides_length shape :
  List.length (get_contiguous_strides shape) = List.length shape.
Proof.
  induction shape as [|d rest IH]; [reflexivity|].
  rewrite contiguous_strides_cons. simpl. now rewrite IH.
Qed.

(** *** Full-range coordinates select everything *)

Lemma filter_by_trivial_all {A} n (l : list A) :
  filter_by_trivial (TuplePad n ALL) l = l.
Proof.
  revert l. induction n as [|n IH]; intros l; [reflexivity|].
  destruct l as [|x xs]; [reflexivity|]. simpl. now rewrite IH.
Qed.

Lemma get_range_shape_all n shape :
  get_range_shape (TuplePad n ALL) shape = shape.
Proof.
  revert shape. induction n as [|n IH]; intros shape; [reflexivity|].
  destruct shape as [|d ds]; [reflexivity|]. simpl. now rewrite IH.
Qed.

Lemma get_range_start_all n strides_ :
  get_range_start (TuplePad n ALL) strides_ = 0%nat.
Proof.
  revert strides_. induction n as [|n IH]; intros l; [reflexivity|].
  destruct l as [|x xs]; [reflexivity|]. simpl. now rewrite IH.
Qed.

Lemma view_full_range {D} (t : @Tensor D) :
  view t =
    {| tensor_shape := tensor_shape t;
       tensor_dim_types := tensor_dim_types t;
       tensor_view_type := ViewType.Mutable;
       tensor_memory :=
         {| raw_buffer := raw_buffer (tensor_memory t);
            owns_buffer := false;
            mem_offset := mem_offset (tensor_memory t);
            mem_strides := mem_strides (tensor_memory t);
            mem_shape := mem_shape (tensor_memory t) |} |}.
Proof.
  unfold view, view_coords, Tensor_view_of, StridedMemory_view.
  rewrite !filter_by_trivial_all, !get_range_shape_all, get_range_start_all.
  rewrite Nat.add_0_r. reflexivity.
Qed.

Lemma is_view_false {D} (t : @Tensor D) :
  is_view t = false <-> tensor_view_type t = ViewType.None.
Proof. unfold is_view. destruct (tensor_view_type t); simpl; split; congruence. Qed.

(** *** [resize] *)

Lemma fresh_buffer_unused {T} (h : @heap T) : h !! fresh (dom h) = None.
Proof. unfold heap in *. apply not_elem_of_dom_1, is_fresh. Qed.

Lemma reallocated {T D} (t : @Tensor D) (h : @heap T) new_shape dts :
  tensor_view_type t = ViewType.None ->
  resized t h new_shape
    {| tensor_shape := new_shape; tensor_dim_types := dts;
       tensor_view_type := tensor_view_type t;
       tensor_memory := fst (StridedMemory_of_shape new_shape h) |}
    (StridedMemory_destroy (tensor_memory t)
       (snd (StridedMemory_of_shape new_shape h))).
Proof.
  intros Hown. unfold resized, strides, is_contiguous, is_view. simpl.
  rewrite Hown. repeat split.
  - apply contiguous_strides_row_major.
  - unfold are_strides_contiguous, strides. apply bool_decide_eq_true. reflexivity.
  - exists (fresh (dom h)). repeat split.
    + apply fresh_buffer_unused.
    + intros Hlive. unfold StridedMemory_destroy, memory_live, heap in *.
      destruct (owns_buffer (tensor_memory t)); [|apply lookup_insert_eq].
      destruct (raw_buffer (tensor_memory t)) as [b0|] eqn:Hb;
        [|apply lookup_insert_eq].
      rewrite lookup_delete_ne; [apply lookup_insert_eq|].
      intros ->. destruct (Hlive _ eq_refl) as [x Hx].
      pose proof (fresh_buffer_unused h) as F. unfold heap in F.
      rewrite F in Hx. discriminate.
Qed.

(** C5. Both overloads of [resize] throw on a view; the shape-only
    overload also throws on an owner when the new rank exceeds the
    current one; otherwise [resize] on an owner returns, and the tensor
    has the new shape, a buffer of its own that was not alive before, the
    row-major default strides of the new shape, and is contiguous. *)
Theorem resize_view_fails_owner_reallocates {T D} (pad : D)
    (t : @Tensor D) (new_shape : list nat) (new_dim_types : list D)
    (h : @heap T) :
  (is_view t = true ->
     resize pad t new_shape h = Throw (H2Exception "Cannot resize a view") /\
     resize_with_dim_types t new_shape new_dim_types h
       = Throw (H2Exception "Cannot resize a view")) /\
  (is_view t = false ->
     ((List.length (tensor_shape t) < List.length new_shape)%nat ->
        resize pad t new_shape h
          = Throw (H2Exception "Must provide dimension types to resize larger")) /\
     ((List.length new_shape <= List.length (tensor_shape t))%nat ->
        exists t' h', resize pad t new_shape h = Return (t', h') /\
                      resized t h new_shape t' h') /\
     (exists t' h',
        resize_with_dim_types t new_shape new_dim_types h = Return (t', h') /\
        resized t h new_shape t' h')).
Proof.
  split.
  - intros Hv. unfold resize, resize_with_dim_types. rewrite Hv. auto.
  - intros Hv. unfold resize, resize_with_dim_types. rewrite Hv.
    apply is_view_false in Hv. repeat split.
    + intros Hlt. apply Nat.ltb_lt in Hlt. rewrite Hlt. reflexivity.
    + intros Hle. apply Nat.ltb_ge in Hle. rewrite Hle.
      do 2 eexists. split; [reflexivity|]. apply reallocated, Hv.
    + do 2 eexists. split; [reflexivity|]. apply reallocated, Hv.
Qed.

Lemma resize_view_fails_owner_reallocates_witness :
  (resize Spatial strided_alias [4; 2]%nat (∅ : @heap Z)
     = Throw (H2Exception "Cannot resize a view") /\
   resize_with_dim_types strided_alias [4; 2]%nat [Sample; Spatial]
     (∅ : @heap Z) = Throw (H2Exception "Cannot resize a view")) /\
  resize Spatial (fst owner_234) [2; 3; 4; 5]%nat (snd owner_234)
    = Throw (H2Exception "Must provide dimension types to resize larger") /\
  exists t' h',
    resize Spatial (fst owner_234) [5; 6]%nat (snd owner_234) = Return (t', h') /\
    resized (fst owner_234) (snd owner_234) [5; 6]%nat t' h'.
Proof.
  split; [|split].
  - apply (proj1 (resize_view_fails_owner_reallocates
                    Spatial strided_alias [4; 2]%nat [Sample; Spatial] ∅)).
    reflexivity.
  - apply (proj2 (resize_view_fails_owner_reallocates
                    Spatial (fst owner_234) [2; 3; 4; 5]%nat [] (snd owner_234))).
    + reflexivity.
    + simpl. lia.
  - apply (proj2 (resize_view_fails_owner_reallocates
                    Spatial (fst owner_234) [5; 6]%nat [] (snd owner_234))).
    + reflexivity.
    + simpl. lia.
Defined.

(** C10. The shape-only [resize] of an owner to a rank no larger than
    the current one returns, and the dimension types are the first
    [new_shape.size()] of the old ones: every surviving dimension keeps
    its type, none is recomputed or padded in. *)
Theorem resize_truncates_dim_types {T D} (pad : D) (t : @Tensor D)
    (new_shape : list nat) (h : @heap T) :
  is_view t = false ->
  ranks_agree t ->
  (List.length new_shape <= List.length (tensor_shape t))%nat ->
  exists t' h',
    resize pad t new_shape h = Return (t', h') /\
    tensor_dim_types t' = take (List.length new_shape) (tensor_dim_types t) /\
    List.length (tensor_dim_types t') = List.length new_shape /\
    (forall i, (i < List.length new_shape)%nat ->
               tensor_dim_types t' !! i = tensor_dim_types t !! i).
Proof.
  intros Hv Hranks Hle. unfold ranks_agree in Hranks.
  unfold resize. rewrite Hv.
  apply Nat.ltb_ge in Hle as Hle'. rewrite Hle'. simpl.
  do 2 eexists. split; [reflexivity|]. simpl.
  assert (E : set_size pad (List.length new_shape) (tensor_dim_types t)
              = take (List.length new_shape) (tensor_dim_types t)).
  { unfold set_size.
    replace (List.length new_shape - List.length (tensor_dim_types t))%nat
      with 0%nat by lia.
    simpl. apply app_nil_r. }
  rewrite E. repeat split.
  - rewrite length_take. lia.
  - intros i Hi. apply lookup_take_lt. exact Hi.
Qed.

Lemma resize_truncates_dim_types_witness :
  exists t' h',
    resize Spatial (fst owner_234) [5; 6]%nat (snd owner_234) = Return (t', h') /\
    tensor_dim_types t' = [Sample; Channel].
Proof.
  destruct (resize_truncates_dim_types Spatial (fst owner_234) [5; 6]%nat
              (snd owner_234)) as (t' & h' & E & Hd & _).
  - reflexivity.
  - reflexivity.
  - simpl. lia.
  - exists t', h'. split; [exact E | exact Hd].
Defined.

(** *** [data] and [const_data] *)

(** C6. The non-const [data] throws exactly when the tensor is a const
    view; on every other tensor it returns a read-write pointer to the
    tensor's buffer. [const_data] returns on every tensor. *)
Theorem data_throws_iff_const_view {D} (t : @Tensor D) :
  ((exists e, data t = Throw e) <-> tensor_view_type t = ViewType.Const) /\
  (tensor_view_type t = ViewType.Const ->
     data t = Throw (H2Exception "Cannot access non-const buffer of const view")) /\
  (tensor_view_type t <> ViewType.Const ->
     data t = Return {| pointer_access := ReadWrite;
                        address := b ← raw_buffer (tensor_memory t);
                                   Some (b, mem_offset (tensor_memory t)) |}) /\
  const_data t = Return {| pointer_access := ReadOnly;
                           address := b ← raw_buffer (tensor_memory t);
                                      Some (b, mem_offset (tensor_memory t)) |}.
Proof.
  unfold data, const_data, memory_data.
  destruct (tensor_view_type t); simpl; repeat split;
    try congruence; try (intros (e & He); congruence); eauto.
Qed.

Lemma data_throws_iff_const_view_witness :
  data const_alias
    = Throw (H2Exception "Cannot access non-const buffer of const view") /\
  data strided_alias
    = Return {| pointer_access := ReadWrite; address := Some (7%nat, 0%nat) |} /\
  data (fst owner_234)
    = Return {| pointer_access := ReadWrite; address := Some (0%nat, 0%nat) |}.
Proof.
  split; [|split].
  - apply (proj1 (proj2 (data_throws_iff_const_view const_alias))). reflexivity.
  - apply (proj1 (proj2 (proj2 (data_throws_iff_const_view strided_alias)))).
    discriminate.
  - apply (proj1 (proj2 (proj2 (data_throws_iff_const_view (fst owner_234))))).
    discriminate.
Defined.

(** *** [contiguous] *)

(** C7. On a contiguous tensor [contiguous] returns the full-range view:
    a mutable view of the same shape and dimension types over the same
    buffer, offset and strides, so nothing is copied or compacted. On a
    tensor that is not contiguous it throws, the message being the
    not-implemented one and none of the API-misuse messages. *)
Theorem contiguous_views_or_is_not_implemented {D} (t : @Tensor D) :
  (is_contiguous t = true ->
     contiguous t = Return (view t) /\
     tensor_shape (view t) = tensor_shape t /\
     tensor_dim_types (view t) = tensor_dim_types t /\
     tensor_view_type (view t) = ViewType.Mutable /\
     raw_buffer (tensor_memory (view t)) = raw_buffer (tensor_memory t) /\
     owns_buffer (tensor_memory (view t)) = false /\
     mem_offset (tensor_memory (view t)) = mem_offset (tensor_memory t) /\
     strides (view t) = strides t) /\
  (is_contiguous t = false ->
     contiguous t = Throw (H2Exception "contiguous() not implemented") /\
     H2Exception "contiguous() not implemented" ∉ @usage_errors) /\
  (forall v, contiguous t = Return v ->
     raw_buffer (tensor_memory v) = raw_buffer (tensor_memory t) /\
     mem_offset (tensor_memory v) = mem_offset (tensor_memory t) /\
     strides v = strides t /\
     owns_buffer (tensor_memory v) = false).
Proof.
  unfold contiguous. split; [|split].
  - intros ->. rewrite view_full_range. repeat split.
  - intros ->. split; [reflexivity|].
    unfold usage_errors. rewrite !elem_of_cons, elem_of_nil.
    intros [H | [H | [H | []]]]; discriminate.
  - intros v. destruct (is_contiguous t); [|discriminate].
    intros H. inversion H. rewrite view_full_range. repeat split.
Qed.

Lemma contiguous_views_or_is_not_implemented_witness :
  contiguous const_alias = Return (view const_alias) /\
  contiguous strided_alias = Throw (H2Exception "contiguous() not implemented").
Proof.
  split.
  - apply (proj1 (contiguous_views_or_is_not_implemented const_alias)).
    reflexivity.
  - apply (proj1 (proj2 (contiguous_views_or_is_not_implemented strided_alias))).
    reflexivity.
Defined.

(** *** [view] followed by [unview] *)

Lemma is_view_view {D} (t : @Tensor D) : is_view (view t) = true.
Proof. rewrite view_full_range. reflexivity. Qed.

Lemma unview_view {T D} debug (t : @Tensor D) (h : @heap T) :
  unview debug (view t) h =
    Return ({| tensor_shape := []; tensor_dim_types := [];
               tensor_view_type := ViewType.None;
               tensor_memory := StridedMemory_default |}, h).
Proof.
  unfold unview, H2_ASSERT_DEBUG, empty. rewrite is_view_view.
  rewrite andb_false_r. rewrite view_full_range. reflexivity.
Qed.

(** C8. For every tensor object [a], taking its full-range view and
    unviewing that view returns; the view object is then empty (shape and
    dimension types of rank 0, [ViewType::None], no memory held), the
    object [a] is the tensor it was (shape, dimension types, view type,
    memory and strides), every other object is as before too, and no
    buffer has changed. *)
Theorem view_unview_round_trip {T D} debug (p : @program T D) (a : nat)
    (t : @Tensor D) :
  objects p !! a = Some t ->
  exists v p',
    view_then_unview debug a p = Some (Return (v, p')) /\
    v <> a /\
    objects p !! v = None /\
    objects p' !! v =
      Some {| tensor_shape := []; tensor_dim_types := [];
              tensor_view_type := ViewType.None;
              tensor_memory := StridedMemory_default |} /\
    raw_buffer StridedMemory_default = None /\
    objects p' !! a = Some t /\
    (forall o, o <> v -> objects p' !! o = objects p !! o) /\
    buffers p' = buffers p.
Proof.
  intros Ha.
  set (v := fresh (dom (objects p))).
  assert (Hv : objects p !! v = None) by apply not_elem_of_dom_1, is_fresh.
  assert (Hne : v <> a) by congruence.
  unfold view_then_unview, new_view, call_unview.
  rewrite Ha. simpl. fold v.
  rewrite lookup_insert_eq. simpl. rewrite unview_view.
  do 2 eexists. split; [reflexivity|]. simpl.
  repeat split; try assumption.
  - apply lookup_insert_eq.
  - rewrite !lookup_insert_ne by assumption. exact Ha.
  - intros o Ho. rewrite !lookup_insert_ne by congruence. reflexivity.
Qed.

Lemma view_unview_round_trip_witness :
  exists v p',
    view_then_unview true 5%nat program_234 = Some (Return (v, p')) /\
    objects p' !! 5%nat = Some (fst owner_234) /\
    buffers p' = buffers program_234.
Proof.
  destruct (view_unview_round_trip true program_234 5%nat (fst owner_234))
    as (v & p' & E & _ & _ & _ & _ & Ha & _ & Hb).
  - reflexivity.
  - exists v, p'. repeat split; assumption.
Defined.

End TensorFacts.

(** * Properties of the GPU runtime *)

Module RuntimeFacts.
Import CStdlib Runtime.

Ltac run :=
  cbv [mbind M_bind mret M_ret eval emit H2_GPU_INFO H2_GPU_WARN H2_GPU_ERROR
       terminate record_call get_flag set_flag get_active set_active
       H2_CHECK_HIP error hipInit hipGetDeviceCount hipGetDevice
       hipSetDevice hipGetDeviceProperties num_gpus current_gpu set_gpu
       log_gpu_info].

Lemma checked_Some z r : CInt.checked z = Some r -> r = z /\ CInt.in_range z = true.
Proof.
  unfold CInt.checked. destruct (CInt.in_range z); intros H; inversion H; auto.
Qed.

Lemma in_range_bounds z :
  CInt.in_range z = true <-> CInt.INT_MIN <= z <= CInt.INT_MAX.
Proof. unfold CInt.in_range. rewrite andb_true_iff, !Z.leb_le. tauto. Qed.

Lemma checked_in_range z : CInt.in_range z = true -> CInt.checked z = Some z.
Proof. unfold CInt.checked. now intros ->. Qed.

Lemma atoi_range v r : atoi v = Some r -> CInt.in_range r = true.
Proof. unfold atoi. intros H. apply checked_Some in H as [-> H]. exact H. Qed.

Lemma guess_local_rank_range w r :
  guess_local_rank w = Some r -> CInt.in_range r = true.
Proof.
  unfold guess_local_rank.
  destruct (or_getenv _ _ _) as [v|]; [apply atoi_range|].
  intros H. inversion H. reflexivity.
Qed.

Lemma rem_nonneg a b :
  0 <= a -> 0 < b -> CInt.in_range a = true ->
  CInt.rem a b = Some (a mod b).
Proof.
  intros Ha Hb Hr. unfold CInt.rem.
  destruct (Z.eqb_spec b 0) as [->|_]; [lia|].
  apply in_range_bounds in Hr.
  assert (Hq : CInt.in_range (Z.quot a b) = true).
  { apply in_range_bounds. rewrite Z.quot_div_nonneg by lia.
    assert (0 <= a / b) by (apply Z.div_pos; lia).
    assert (a / b <= a) by (apply Z.div_le_upper_bound; nia).
    unfold CInt.INT_MIN, CInt.INT_MAX in *. lia. }
  rewrite Hq, Z.rem_mod_nonneg by lia. reflexivity.
Qed.

Lemma num_gpus_run w s :
  num_gpus w s = Ok (visible_devices w) (with_call HipGetDeviceCount s).
Proof. reflexivity. Qed.

Lemma set_gpu_valid w id s :
  valid_device w id = true ->
  set_gpu w id s =
    Ok tt (with_device id
             (with_call (HipSetDevice id)
                (with_log (LogEntry INFO "setting device to id={}" [ArgInt id]) s))).
Proof. intros H. run. simpl. rewrite H. reflexivity. Qed.

Lemma set_gpu_invalid w id s :
  valid_device w id = false ->
  set_gpu w id s =
    Terminated (with_log (LogEntry ERROR "HIP error" [])
                  (with_call (HipSetDevice id)
                     (with_log (LogEntry INFO "setting device to id={}" [ArgInt id]) s))).
Proof. intros H. run. simpl. rewrite H. reflexivity. Qed.

(** *** The branches of [get_reasonable_default_gpu_id] *)

Lemma gpu_id_force_zero w s :
  force_device_zero w = true ->
  get_reasonable_default_gpu_id w s = Ok 0 s.
Proof. intros H. unfold get_reasonable_default_gpu_id. rewrite H. reflexivity. Qed.

Lemma gpu_id_no_rank w s lrank lsize :
  force_device_zero w = false ->
  guess_local_rank w = Some lrank -> guess_local_size w = Some lsize ->
  lrank < 0 ->
  get_reasonable_default_gpu_id w s = Ok 0 (with_log warn_rank s).
Proof.
  intros H0 Hr Hs Hneg. unfold get_reasonable_default_gpu_id.
  rewrite H0, Hr, Hs. run.
  destruct (Z.ltb_spec lrank 0); [reflexivity | lia].
Qed.

Lemma gpu_id_no_size w s lrank lsize :
  force_device_zero w = false ->
  guess_local_rank w = Some lrank -> guess_local_size w = Some lsize ->
  0 <= lrank -> lsize < 0 ->
  get_reasonable_default_gpu_id w s = Ok 0 (with_log warn_size s).
Proof.
  intros H0 Hr Hs Hpos Hneg. unfold get_reasonable_default_gpu_id.
  rewrite H0, Hr, Hs. run.
  destruct (Z.ltb_spec lrank 0); [lia|].
  destruct (Z.ltb_spec lsize 0); [reflexivity | lia].
Qed.

Lemma gpu_id_known w s lrank lsize :
  force_device_zero w = false ->
  guess_local_rank w = Some lrank -> guess_local_size w = Some lsize ->
  0 <= lrank -> 0 <= lsize ->
  get_reasonable_default_gpu_id w s =
    (let s1 := with_call HipGetDeviceCount s in
     if force_round_robin w then eval (CInt.rem lrank (visible_devices w)) s1
     else if lsize <=? visible_devices w then Ok lrank s1
     else Terminated (with_log err_oversubscribed s1)).
Proof.
  intros H0 Hr Hs Hrank Hsize. unfold get_reasonable_default_gpu_id.
  rewrite H0, Hr, Hs. run.
  destruct (Z.ltb_spec lrank 0); [lia|].
  destruct (Z.ltb_spec lsize 0); [lia|].
  simpl. destruct (force_round_robin w); [reflexivity|].
  destruct (lsize <=? visible_devices w); reflexivity.
Qed.

Lemma gpu_id_round_robin w s lrank lsize :
  force_device_zero w = false -> force_round_robin w = true ->
  guess_local_rank w = Some lrank -> guess_local_size w = Some lsize ->
  0 <= lrank -> 0 <= lsize -> 0 < visible_devices w ->
  get_reasonable_default_gpu_id w s =
    Ok (lrank mod visible_devices w) (with_call HipGetDeviceCount s).
Proof.
  intros H0 Hrr Hr Hs Hrank Hsize Hn.
  rewrite (gpu_id_known w s lrank lsize) by assumption.
  cbv zeta. rewrite Hrr, rem_nonneg; eauto using guess_local_rank_range.
Qed.

Lemma gpu_id_direct w s lrank lsize :
  force_device_zero w = false -> force_round_robin w = false ->
  guess_local_rank w = Some lrank -> guess_local_size w = Some lsize ->
  0 <= lrank -> 0 <= lsize -> lsize <= visible_devices w ->
  get_reasonable_default_gpu_id w s = Ok lrank (with_call HipGetDeviceCount s).
Proof.
  intros H0 Hrr Hr Hs Hrank Hsize Hn.
  rewrite (gpu_id_known w s lrank lsize) by assumption.
  cbv zeta. rewrite Hrr.
  destruct (Z.leb_spec lsize (visible_devices w)); [reflexivity | lia].
Qed.

Lemma gpu_id_oversubscribed w s lrank lsize :
  force_device_zero w = false -> force_round_robin w = false ->
  guess_local_rank w = Some lrank -> guess_local_size w = Some lsize ->
  0 <= lrank -> 0 <= lsize -> visible_devices w < lsize ->
  get_reasonable_default_gpu_id w s =
    Terminated (with_log err_oversubscribed (with_call HipGetDeviceCount s)).
Proof.
  intros H0 Hrr Hr Hs Hrank Hsize Hn.
  rewrite (gpu_id_known w s lrank lsize) by assumption.
  cbv zeta. rewrite Hrr.
  destruct (Z.leb_spec lsize (visible_devices w)); [lia | reflexivity].
Qed.

Lemma set_default_run w s d s' :
  get_reasonable_default_gpu_id w s = Ok d s' ->
  set_reasonable_default_gpu w s = set_gpu w d s'.
Proof.
  intros H. unfold set_reasonable_default_gpu.
  cbv [mbind M_bind]. rewrite H. reflexivity.
Qed.

Lemma set_default_fatal w s s' :
  get_reasonable_default_gpu_id w s = Terminated s' ->
  set_reasonable_default_gpu w s = Terminated s'.
Proof.
  intros H. unfold set_reasonable_default_gpu.
  cbv [mbind M_bind]. rewrite H. reflexivity.
Qed.

(** Whatever branch is taken, the heuristic itself leaves the flag and the
    active device alone and asks the driver at most for the device count. *)
Lemma gpu_id_frame w s d s' :
  get_reasonable_default_gpu_id w s = Ok d s' ->
  initialized_ s' = initialized_ s /\
  active_device s' = active_device s /\
  (driver_trace s' = driver_trace s \/
   driver_trace s' = driver_trace s ++ [HipGetDeviceCount]).
Proof.
  unfold get_reasonable_default_gpu_id.
  destruct (force_device_zero w).
  { intros H. inversion H. subst. auto. }
  run.
  destruct (guess_local_rank w) as [lrank|]; [|discriminate].
  destruct (guess_local_size w) as [lsize|]; [|discriminate].
  destruct (lrank <? 0). { intros H. inversion H. subst. simpl. auto. }
  destruct (lsize <? 0). { intros H. inversion H. subst. simpl. auto. }
  simpl. destruct (force_round_robin w).
  - destruct (CInt.rem lrank (visible_devices w)); [|discriminate].
    intros H. inversion H. subst. simpl. auto.
  - destruct (lsize <=? visible_devices w); [|discriminate].
    intros H. inversion H. subst. simpl. auto.
Qed.

(** *** A first call of [init_runtime] *)

Lemma init_runtime_first w s :
  initialized_ s = false ->
  init_runtime w s =
    (set_reasonable_default_gpu w;; set_flag true;;
     dev ← current_gpu; log_gpu_info w dev) (binding_entry w s).
Proof.
  intros H. unfold init_runtime.
  cbv [mbind M_bind get_flag]. rewrite H.
  destruct (set_reasonable_default_gpu w (binding_entry w s)) eqn:E.
  all: run; simpl.
  all: match goal with
       | |- context [set_reasonable_default_gpu ?w0 ?x] =>
           change x with (binding_entry w0 s)
       end.
  all: rewrite E; reflexivity.
Qed.

Lemma init_runtime_binds w s d s' :
  initialized_ s = false ->
  get_reasonable_default_gpu_id w (binding_entry w s) = Ok d s' ->
  valid_device w d = true ->
  init_runtime w s =
    Ok tt (with_log (gpu_info_entry w d)
             (with_call (HipGetDeviceProperties d)
                (with_call HipGetDevice
                   (with_flag true
                      (with_device d
                         (with_call (HipSetDevice d)
                            (with_log (setting_entry d) s'))))))).
Proof.
  intros Hs Hid Hv. rewrite init_runtime_first by assumption.
  cbv [mbind M_bind]. rewrite (set_default_run _ _ _ _ Hid).
  rewrite set_gpu_valid by assumption.
  run. simpl. rewrite Hv. reflexivity.
Qed.

Lemma init_runtime_fatal w s s' :
  initialized_ s = false ->
  get_reasonable_default_gpu_id w (binding_entry w s) = Terminated s' ->
  init_runtime w s = Terminated s'.
Proof.
  intros Hs Hid. rewrite init_runtime_first by assumption.
  cbv [mbind M_bind]. rewrite (set_default_fatal _ _ _ Hid). reflexivity.
Qed.

Lemma init_runtime_rejected w s d s' :
  initialized_ s = false ->
  get_reasonable_default_gpu_id w (binding_entry w s) = Ok d s' ->
  valid_device w d = false ->
  init_runtime w s =
    Terminated (with_log hip_error_entry
                  (with_call (HipSetDevice d)
                     (with_log (setting_entry d) s'))).
Proof.
  intros Hs Hid Hv. rewrite init_runtime_first by assumption.
  cbv [mbind M_bind]. rewrite (set_default_run _ _ _ _ Hid).
  rewrite set_gpu_invalid by assumption. reflexivity.
Qed.

(** *** Device-binding claims *)

(** C1, as amended. With H2_SELECT_DEVICE_RR truthy, H2_SELECT_DEVICE_0
    not truthy, local rank 5 and 4 visible devices, the heuristic run by
    [init_runtime] binds device 1 (5 mod 4) provided a local size can be
    determined as well; when no local size is known it warns and binds
    device 0 instead. *)
Theorem round_robin_needs_local_size w s lsize :
  force_round_robin w = true ->
  force_device_zero w = false ->
  guess_local_rank w = Some 5 ->
  guess_local_size w = Some lsize ->
  visible_devices w = 4 ->
  initialized_ s = false ->
  (0 <= lsize ->
     chosen_device (get_reasonable_default_gpu_id w s) = Some 1 /\
     bound_device (init_runtime w s) = Some 1) /\
  (lsize < 0 ->
     get_reasonable_default_gpu_id w s = Ok 0 (with_log warn_size s) /\
     bound_device (init_runtime w s) = Some 0).
Proof.
  intros Hrr H0 Hrank Hsize Hn Hs. split; intros Hl.
  - assert (Hid : forall s0, get_reasonable_default_gpu_id w s0 =
                             Ok 1 (with_call HipGetDeviceCount s0)).
    { intros s0. rewrite (gpu_id_round_robin w s0 5 lsize) by (auto; lia).
      rewrite Hn. reflexivity. }
    split; [rewrite Hid; reflexivity|].
    erewrite init_runtime_binds; [reflexivity | assumption | apply Hid |].
    unfold valid_device. rewrite Hn. reflexivity.
  - assert (Hid : forall s0, get_reasonable_default_gpu_id w s0 =
                             Ok 0 (with_log warn_size s0)).
    { intros s0. apply (gpu_id_no_size w s0 5 lsize); auto; lia. }
    split; [apply Hid|].
    erewrite init_runtime_binds; [reflexivity | assumption | apply Hid |].
    unfold valid_device. rewrite Hn. reflexivity.
Qed.

Lemma round_robin_needs_local_size_witness :
  chosen_device
    (get_reasonable_default_gpu_id scenario_rr_sized initial_state) = Some 1 /\
  bound_device (init_runtime scenario_rr_sized initial_state) = Some 1.
Proof.
  apply (round_robin_needs_local_size scenario_rr_sized initial_state 8);
    solve [vm_compute; reflexivity | lia].
Defined.

(** C1 as stated fails: with only H2_SELECT_DEVICE_RR=1 and
    OMPI_COMM_WORLD_LOCAL_RANK=5 set and 4 visible devices, no local size
    can be guessed, and the process is bound to device 0, not device 1. *)
Lemma round_robin_rank_only_binds_device_0 :
  force_round_robin scenario_rr_rank_only = true /\
  environ scenario_rr_rank_only !! "OMPI_COMM_WORLD_LOCAL_RANK"%string
    = Some "5"%string /\
  dom (environ scenario_rr_rank_only)
    = {[ "H2_SELECT_DEVICE_RR"%string; "OMPI_COMM_WORLD_LOCAL_RANK"%string ]} /\
  visible_devices scenario_rr_rank_only = 4 /\
  chosen_device
    (get_reasonable_default_gpu_id scenario_rr_rank_only initial_state) = Some 0 /\
  bound_device (init_runtime scenario_rr_rank_only initial_state) = Some 0 /\
  bound_device (init_runtime scenario_rr_rank_only initial_state) <> Some 1.
Proof.
  repeat split; try (vm_compute; reflexivity); discriminate.
Qed.

(** C2, as amended. Whenever H2_SELECT_DEVICE_0 holds a string that is
    non-empty and whose first character is not the digit 0, the heuristic
    returns device 0 at once, with no further probe, log or driver call,
    whatever the other variables (H2_SELECT_DEVICE_RR included) hold; a
    first [init_runtime] then binds device 0 when a device is visible. *)
Theorem force_device_zero_wins w s v :
  environ w !! "H2_SELECT_DEVICE_0"%string = Some v ->
  first_char_truthy v ->
  get_reasonable_default_gpu_id w s = Ok 0 s /\
  (initialized_ s = false -> 0 < visible_devices w ->
   bound_device (init_runtime w s) = Some 0).
Proof.
  intros Hv (c & rest & -> & Hc).
  assert (H0 : force_device_zero w = true).
  { unfold force_device_zero, getenv. rewrite Hv.
    unfold check_bool_cstr, char_at. simpl.
    destruct (Ascii.eqb_spec c "0"); [contradiction | reflexivity]. }
  split; [apply gpu_id_force_zero; assumption|].
  intros Hs Hn.
  erewrite init_runtime_binds;
    [reflexivity | assumption | apply gpu_id_force_zero; assumption |].
  unfold valid_device. destruct (Z.ltb_spec 0 (visible_devices w)); [reflexivity | lia].
Qed.

Lemma force_device_zero_wins_witness :
  force_round_robin scenario_force_zero = true /\
  get_reasonable_default_gpu_id scenario_force_zero initial_state
    = Ok 0 initial_state /\
  bound_device (init_runtime scenario_force_zero initial_state) = Some 0.
Proof.
  destruct (force_device_zero_wins scenario_force_zero initial_state "1")
    as [Hid Hbind].
  - vm_compute. reflexivity.
  - exists "1"%char, EmptyString. split; [reflexivity | discriminate].
  - split; [reflexivity|]. split; [exact Hid|].
    apply Hbind; [reflexivity | vm_compute; reflexivity].
Defined.

(** C2 as stated fails: the string 01 is non-empty and is not the literal
    0, yet the code does not take it for truthy, and the process is bound
    by the SLURM variables to device 2. *)
Lemma zero_prefixed_flag_is_not_truthy :
  environ scenario_zero_prefixed !! "H2_SELECT_DEVICE_0"%string
    = Some "01"%string /\
  spec_truthy "01" = true /\
  force_device_zero scenario_zero_prefixed = false /\
  chosen_device
    (get_reasonable_default_gpu_id scenario_zero_prefixed initial_state) = Some 2 /\
  bound_device (init_runtime scenario_zero_prefixed initial_state) = Some 2 /\
  bound_device (init_runtime scenario_zero_prefixed initial_state) <> Some 0.
Proof.
  repeat split; try (vm_compute; reflexivity); discriminate.
Qed.

(** C3, as amended. With no override flag in force and both the local
    rank and the local size guessed (non-negative): when the local size is
    at most the number of visible devices the heuristic selects device
    [lrank] and [set_gpu] is called on it; the process is bound to it when
    [lrank] is below the number of visible devices, and is terminated by
    the failed driver call when it is not. When the local size exceeds the
    number of visible devices the process is terminated, the last message
    logged being the oversubscription error. *)
Theorem direct_mapping_or_fatal w s lrank lsize :
  force_device_zero w = false -> force_round_robin w = false ->
  guess_local_rank w = Some lrank -> guess_local_size w = Some lsize ->
  0 <= lrank -> 0 <= lsize ->
  initialized_ s = false ->
  (lsize <= visible_devices w ->
     chosen_device (get_reasonable_default_gpu_id w s) = Some lrank /\
     set_reasonable_default_gpu w s
       = set_gpu w lrank (with_call HipGetDeviceCount s) /\
     (lrank < visible_devices w ->
        bound_device (init_runtime w s) = Some lrank) /\
     (visible_devices w <= lrank ->
        exists s', init_runtime w s = Terminated s' /\
                   last (log s') = Some hip_error_entry /\
                   last (driver_trace s') = Some (HipSetDevice lrank) /\
                   active_device s' = active_device s)) /\
  (visible_devices w < lsize ->
     get_reasonable_default_gpu_id w s
       = Terminated (with_log err_oversubscribed (with_call HipGetDeviceCount s)) /\
     exists s', init_runtime w s = Terminated s' /\
                last (log s') = Some err_oversubscribed).
Proof.
  intros H0 Hrr Hrank Hsize Hr Hz Hs. split; intros Hn.
  - pose proof (fun s0 => gpu_id_direct w s0 lrank lsize H0 Hrr Hrank Hsize Hr Hz Hn)
      as Hid.
    split; [rewrite Hid; reflexivity|].
    split; [apply set_default_run, Hid|].
    split.
    + intros Hlt. erewrite init_runtime_binds;
        [reflexivity | assumption | apply Hid |].
      unfold valid_device.
      destruct (Z.leb_spec 0 lrank), (Z.ltb_spec lrank (visible_devices w));
        simpl; try reflexivity; lia.
    + intros Hge. eexists. split.
      * eapply init_runtime_rejected; [assumption | apply Hid |].
        unfold valid_device.
        destruct (Z.ltb_spec lrank (visible_devices w)); [lia|].
        apply andb_false_r.
      * simpl. split; [apply last_snoc|]. split; [apply last_snoc | reflexivity].
  - pose proof (fun s0 =>
                  gpu_id_oversubscribed w s0 lrank lsize H0 Hrr Hrank Hsize Hr Hz Hn)
      as Hid.
    split; [apply Hid|].
    eexists. split; [apply init_runtime_fatal; [assumption | apply Hid]|].
    simpl. apply last_snoc.
Qed.

Lemma direct_mapping_or_fatal_witness :
  bound_device (init_runtime (scenario_slurm 4) initial_state) = Some 2 /\
  exists s', init_runtime (scenario_slurm 2) initial_state = Terminated s' /\
             last (log s') = Some err_oversubscribed.
Proof.
  split.
  - apply (direct_mapping_or_fatal (scenario_slurm 4) initial_state 2 4);
      solve [vm_compute; reflexivity | lia | vm_compute; discriminate].
  - apply (direct_mapping_or_fatal (scenario_slurm 2) initial_state 2 4);
      solve [vm_compute; reflexivity | lia | vm_compute; discriminate].
Defined.

(** C3 as stated fails: with SLURM_LOCALID=5, SLURM_NTASKS_PER_NODE=4 and
    4 visible devices the rank and the size are both guessed, no override
    flag is set and the local size does not exceed the devices, yet the
    process is not bound to device 5: [set_gpu 5] is rejected by the
    driver and the process is terminated. The same happens to the fourth
    task of a flux job of 5 tasks on 2 nodes on a node with 3 devices. *)
Lemma rank_beyond_devices_is_fatal :
  (force_device_zero scenario_rank_beyond_devices = false /\
   force_round_robin scenario_rank_beyond_devices = false /\
   guess_local_rank scenario_rank_beyond_devices = Some 5 /\
   guess_local_size scenario_rank_beyond_devices = Some 4 /\
   visible_devices scenario_rank_beyond_devices = 4 /\
   chosen_device
     (get_reasonable_default_gpu_id scenario_rank_beyond_devices initial_state)
     = Some 5 /\
   verdict_after (init_runtime scenario_rank_beyond_devices initial_state)
     = Some hip_error_entry /\
   bound_device (init_runtime scenario_rank_beyond_devices initial_state)
     <> Some 5) /\
  (guess_local_rank scenario_flux_unbalanced = Some 3 /\
   guess_local_size scenario_flux_unbalanced = Some 3 /\
   visible_devices scenario_flux_unbalanced = 3 /\
   verdict_after (init_runtime scenario_flux_unbalanced initial_state)
     = Some hip_error_entry /\
   bound_device (init_runtime scenario_flux_unbalanced initial_state)
     <> Some 3).
Proof.
  repeat split; try (vm_compute; reflexivity); vm_compute; discriminate.
Qed.

(** *** The local size *)

Lemma guess_local_size_mpi_order w :
  guess_local_size_mpi w = mpi_local_size (environ w).
Proof.
  unfold guess_local_size_mpi, mpi_local_size, mpi_size_variables,
    or_getenv, getenv. simpl.
  repeat (match goal with
          | |- context [environ w !! ?k] => destruct (environ w !! k)
          end; try reflexivity).
Qed.

Lemma ceil_div_formula j n : 0 < n -> ceil_div j n = (j + n - 1) / n.
Proof.
  intros Hn. unfold ceil_div.
  pose proof (Z.div_mod (- j) n ltac:(lia)) as E1.
  pose proof (Z.mod_pos_bound (- j) n Hn) as B1.
  apply (Z.div_unique_pos (j + n - 1) n _ (n - 1 - (- j) mod n)); lia.
Qed.

(** C9, as amended. When both FLUX_JOB_SIZE and FLUX_JOB_NNODES are
    present the local size is computed from these two alone, whatever
    their values, and no MPI variable is consulted; for positive values
    whose sum fits an int it is ceil(job_size / nnodes), equal to
    (job_size + nnodes - 1) / nnodes. Only when one of the two is absent
    are the MPI size variables consulted, in the order
    SLURM_NTASKS_PER_NODE, OMPI_COMM_WORLD_LOCAL_SIZE,
    MV2_COMM_WORLD_LOCAL_SIZE, MPI_LOCALNRANKS; the first one present
    decides, and the size is -1 when none is. *)
Theorem guess_local_size_flux_then_mpi w js nn :
  (environ w !! "FLUX_JOB_SIZE"%string = Some js ->
   environ w !! "FLUX_JOB_NNODES"%string = Some nn ->
   (forall j n, atoi js = Some j -> atoi nn = Some n ->
                0 < j -> 0 < n -> j + n <= CInt.INT_MAX ->
                guess_local_size w = Some (ceil_div j n) /\
                ceil_div j n = (j + n - 1) / n) /\
   (forall w', environ w' !! "FLUX_JOB_SIZE"%string = Some js ->
               environ w' !! "FLUX_JOB_NNODES"%string = Some nn ->
               guess_local_size w' = guess_local_size w)) /\
  (environ w !! "FLUX_JOB_SIZE"%string = None \/
   environ w !! "FLUX_JOB_NNODES"%string = None ->
   guess_local_size w = mpi_local_size (environ w)).
Proof.
  split.
  - intros Hjs Hnn. split.
    + intros j n Hj Hn Hjpos Hnpos Hsum.
      pose proof (atoi_range _ _ Hj) as Rj. pose proof (atoi_range _ _ Hn) as Rn.
      apply in_range_bounds in Rj, Rn.
      unfold CInt.INT_MIN, CInt.INT_MAX in *.
      split; [|apply ceil_div_formula; assumption].
      unfold guess_local_size, getenv. rewrite Hjs, Hnn, Hj, Hn. simpl.
      unfold CInt.add. rewrite checked_in_range
        by (apply in_range_bounds; unfold CInt.INT_MIN, CInt.INT_MAX; lia).
      simpl. unfold CInt.sub. rewrite checked_in_range
        by (apply in_range_bounds; unfold CInt.INT_MIN, CInt.INT_MAX; lia).
      simpl. unfold CInt.div.
      destruct (Z.eqb_spec n 0); [lia|].
      rewrite Z.quot_div_nonneg by lia.
      assert (0 <= (j + n - 1) / n) by (apply Z.div_pos; lia).
      assert ((j + n - 1) / n <= j + n - 1) by (apply Z.div_le_upper_bound; nia).
      rewrite checked_in_range
        by (apply in_range_bounds; unfold CInt.INT_MIN, CInt.INT_MAX; lia).
      rewrite ceil_div_formula by assumption. reflexivity.
    + intros w' Hjs' Hnn'. unfold guess_local_size, getenv.
      rewrite Hjs, Hnn, Hjs', Hnn'. reflexivity.
  - intros Habs. rewrite <- guess_local_size_mpi_order.
    unfold guess_local_size, getenv.
    destruct Habs as [-> | Hnn]; [reflexivity|].
    rewrite Hnn. destruct (environ w !! "FLUX_JOB_SIZE"%string); reflexivity.
Qed.

Lemma guess_local_size_flux_then_mpi_witness :
  guess_local_size scenario_flux = Some 3 /\
  guess_local_size scenario_flux_partial = Some 6.
Proof.
  split.
  - apply (proj1 (proj1 (guess_local_size_flux_then_mpi scenario_flux "10" "4")
                    ltac:(vm_compute; reflexivity) ltac:(vm_compute; reflexivity))
             10 4); solve [vm_compute; reflexivity | lia | vm_compute; discriminate].
  - apply (proj2 (guess_local_size_flux_then_mpi scenario_flux_partial "" "")).
    right. vm_compute. reflexivity.
Defined.

(** C9 as stated fails: with FLUX_JOB_SIZE=0 and FLUX_JOB_NNODES=2 the
    pair is present but the job size is not positive; the code still
    computes (0 + 2 - 1) / 2 = 0 from the pair and never reads
    SLURM_NTASKS_PER_NODE=4, which the claim says is consulted. *)
Lemma flux_pair_present_not_positive :
  environ scenario_flux_zero_size !! "FLUX_JOB_SIZE"%string = Some "0"%string /\
  environ scenario_flux_zero_size !! "FLUX_JOB_NNODES"%string = Some "2"%string /\
  atoi "0" = Some 0 /\
  mpi_local_size (environ scenario_flux_zero_size) = Some 4 /\
  claimed_local_size scenario_flux_zero_size = Some 4 /\
  guess_local_size scenario_flux_zero_size = Some 0 /\
  guess_local_size scenario_flux_zero_size
    <> claimed_local_size scenario_flux_zero_size.
Proof.
  repeat split; try (vm_compute; reflexivity); discriminate.
Qed.

(** *** Calling [init_runtime] again *)

Lemma init_runtime_again w s :
  initialized_ s = true ->
  valid_device w (active_device s) = true ->
  init_runtime w s =
    Ok tt (with_log (gpu_info_entry w (active_device s))
             (with_call (HipGetDeviceProperties (active_device s))
                (with_call HipGetDevice
                   (with_log (already_entry (active_device s))
                      (with_call HipGetDevice s))))).
Proof.
  intros Hi Hv. unfold init_runtime. run. rewrite Hi. simpl.
  rewrite Hv. reflexivity.
Qed.

(** A first call that returns has gone through the binding heuristic and
    one accepted [set_gpu]. *)
Lemma init_runtime_first_inv w s s1 :
  initialized_ s = false ->
  init_runtime w s = Ok tt s1 ->
  exists d s',
    get_reasonable_default_gpu_id w (binding_entry w s) = Ok d s' /\
    valid_device w d = true /\
    s1 = with_log (gpu_info_entry w d)
           (with_call (HipGetDeviceProperties d)
              (with_call HipGetDevice
                 (with_flag true
                    (with_device d
                       (with_call (HipSetDevice d)
                          (with_log (setting_entry d) s')))))).
Proof.
  intros Hs Hrun.
  destruct (get_reasonable_default_gpu_id w (binding_entry w s))
    as [d s'| s' |] eqn:Hid.
  - destruct (valid_device w d) eqn:Hv.
    + exists d, s'. rewrite (init_runtime_binds w s d s' Hs Hid Hv) in Hrun.
      inversion Hrun. auto.
    + rewrite init_runtime_first in Hrun by assumption.
      cbv [mbind M_bind] in Hrun.
      rewrite (set_default_run _ _ _ _ Hid), set_gpu_invalid in Hrun by assumption.
      discriminate.
  - rewrite (init_runtime_fatal w s s' Hs Hid) in Hrun. discriminate.
  - rewrite init_runtime_first in Hrun by assumption.
    unfold set_reasonable_default_gpu in Hrun.
    cbv [mbind M_bind] in Hrun. rewrite Hid in Hrun. discriminate.
Qed.

Lemma count_calls_app p t1 t2 :
  count_calls p (t1 ++ t2) = (count_calls p t1 + count_calls p t2)%nat.
Proof. unfold count_calls. rewrite List.filter_app, List.length_app. reflexivity. Qed.

(** C4. A first [init_runtime] that returns has set the flag, initialised
    the driver once and bound a device once, and its last log line names
    the active device. A second call then returns as well: the flag and
    the active device are unchanged, the driver is only queried, and the
    two lines added to the log report the state, the last one again
    naming the active device. *)
Theorem init_runtime_idempotent w s s1 :
  initialized_ s = false ->
  init_runtime w s = Ok tt s1 ->
  (initialized_ s1 = true /\
   (exists t, driver_trace s1 = driver_trace s ++ t /\
              count_calls is_init_call t = 1%nat /\
              count_calls is_bind_call t = 1%nat /\
              In (HipSetDevice (active_device s1)) t) /\
   last (log s1) = Some (gpu_info_entry w (active_device s1))) /\
  exists s2,
    init_runtime w s1 = Ok tt s2 /\
    initialized_ s2 = initialized_ s1 /\
    active_device s2 = active_device s1 /\
    driver_trace s2 =
      driver_trace s1 ++ [HipGetDevice; HipGetDevice;
                          HipGetDeviceProperties (active_device s1)] /\
    count_calls is_init_call (driver_trace s2)
      = count_calls is_init_call (driver_trace s1) /\
    count_calls is_bind_call (driver_trace s2)
      = count_calls is_bind_call (driver_trace s1) /\
    log s2 = log s1 ++ [already_entry (active_device s1);
                        gpu_info_entry w (active_device s1)] /\
    last (log s2) = Some (gpu_info_entry w (active_device s2)).
Proof.
  intros Hs Hrun.
  destruct (init_runtime_first_inv w s s1 Hs Hrun) as (d & s' & Hid & Hv & ->).
  destruct (gpu_id_frame _ _ _ _ Hid) as (_ & _ & Htr).
  split; [split; [reflexivity | split]|].
  - destruct Htr as [Htr | Htr]; simpl; rewrite Htr; simpl;
      rewrite <- !app_assoc; eexists; (split; [reflexivity|]);
      repeat split; simpl; auto 10.
  - simpl. apply last_snoc.
  - eexists. split; [apply init_runtime_again; [reflexivity | exact Hv]|].
    simpl. rewrite <- !app_assoc. simpl.
    repeat split.
    + rewrite !count_calls_app. reflexivity.
    + rewrite !count_calls_app. reflexivity.
    + rewrite last_app. reflexivity.
Qed.

Lemma init_runtime_idempotent_witness :
  init_runtime (scenario_slurm 4) initial_state = Ok tt slurm_bound_state /\
  active_device slurm_bound_state = 2 /\
  exists s2,
    init_runtime (scenario_slurm 4) slurm_bound_state = Ok tt s2 /\
    initialized_ s2 = true /\
    active_device s2 = 2.
Proof.
  assert (E : init_runtime (scenario_slurm 4) initial_state
              = Ok tt slurm_bound_state) by (vm_compute; reflexivity).
  split; [exact E|]. split; [reflexivity|].
  destruct (init_runtime_idempotent (scenario_slurm 4) initial_state
              slurm_bound_state eq_refl E)
    as (_ & s2 & E2 & Hf & Hd & _).
  exists s2. repeat split; assumption.
Defined.

End RuntimeFacts.

(** * Further properties of the GPU runtime *)

Module RuntimeLaws.
Import CStdlib Runtime RuntimeProbes RuntimeFacts.

(** *** The local-rank probe *)

Lemma first_present_at env names i name v :
  names !! i = Some name ->
  env !! name = Some v ->
  (forall j earlier, (j < i)%nat -> names !! j = Some earlier ->
                     env !! earlier = None) ->
  first_present env names = Some v.
Proof.
  revert i. induction names as [|n rest IH]; intros i Hi Hv Hearly.
  - rewrite lookup_nil in Hi. discriminate.
  - destruct i as [|i]; simpl in *.
    + inversion Hi. subst. rewrite Hv. reflexivity.
    + rewrite (Hearly 0%nat n) by (simpl; auto with lia).
      apply (IH i); [assumption | assumption |].
      intros j earlier Hj Hl. apply (Hearly (S j)); [lia | exact Hl].
Qed.

Lemma first_present_none env names :
  (forall name, name ∈ names -> env !! name = None) ->
  first_present env names = None.
Proof.
  induction names as [|n rest IH]; intros H; [reflexivity|].
  simpl. rewrite (H n) by apply list_elem_of_here.
  apply IH. intros name Hin. apply H. apply list_elem_of_further, Hin.
Qed.

Lemma guess_local_rank_order w :
  guess_local_rank w =
    match first_present (environ w) rank_variables with
    | Some v => atoi v
    | None => Some (-1)
    end.
Proof.
  unfold guess_local_rank, rank_variables, or_getenv, getenv. simpl.
  repeat (match goal with
          | |- context [environ w !! ?k] => destruct (environ w !! k)
          end; try reflexivity).
Qed.

(** X1. The local rank is read from the first variable that is present,
    in the order FLUX_TASK_LOCAL_ID, SLURM_LOCALID,
    OMPI_COMM_WORLD_LOCAL_RANK, MV2_COMM_WORLD_LOCAL_RANK, MPI_LOCALRANKID:
    a later variable is never consulted once an earlier one is set,
    whatever the earlier one holds; the rank is -1 when none is set. *)
Theorem guess_local_rank_precedence w :
  (forall i name v,
     rank_variables !! i = Some name ->
     environ w !! name = Some v ->
     (forall j earlier, (j < i)%nat -> rank_variables !! j = Some earlier ->
                        environ w !! earlier = None) ->
     guess_local_rank w = atoi v) /\
  ((forall name, name ∈ rank_variables -> environ w !! name = None) ->
   guess_local_rank w = Some (-1)).
Proof.
  split.
  - intros i name v Hi Hv Hearly. rewrite guess_local_rank_order.
    rewrite (first_present_at _ _ i name v Hi Hv Hearly). reflexivity.
  - intros Hnone. rewrite guess_local_rank_order.
    rewrite first_present_none by assumption. reflexivity.
Qed.

Lemma guess_local_rank_precedence_witness :
  guess_local_rank scenario_rank_shadowed = Some 0 /\
  guess_local_rank scenario_bare = Some (-1).
Proof.
  split.
  - apply (proj1 (guess_local_rank_precedence scenario_rank_shadowed)
             1%nat "SLURM_LOCALID"%string ""%string).
    + reflexivity.
    + vm_compute. reflexivity.
    + intros j earlier Hj Hl. destruct j as [|j]; [|lia].
      inversion Hl. subst. vm_compute. reflexivity.
  - apply (proj2 (guess_local_rank_precedence scenario_bare)).
    intros name _. vm_compute. reflexivity.
Defined.

(** *** What the binding heuristic can return *)

Lemma gpu_id_cases w s :
  get_reasonable_default_gpu_id w s =
    (if force_device_zero w then Ok 0 s
     else match guess_local_rank w, guess_local_size w with
          | Some lrank, Some lsize =>
              if lrank <? 0 then Ok 0 (with_log warn_rank s)
              else if lsize <? 0 then Ok 0 (with_log warn_size s)
              else
                let s1 := with_call HipGetDeviceCount s in
                if force_round_robin w
                then eval (CInt.rem lrank (visible_devices w)) s1
                else if lsize <=? visible_devices w then Ok lrank s1
                else Terminated (with_log err_oversubscribed s1)
          | _, _ => Undefined
          end).
Proof.
  unfold get_reasonable_default_gpu_id.
  destruct (force_device_zero w); [reflexivity|]. run.
  destruct (guess_local_rank w) as [lrank|]; [|reflexivity].
  destruct (guess_local_size w) as [lsize|]; [|reflexivity].
  destruct (lrank <? 0); [reflexivity|].
  destruct (lsize <? 0); [reflexivity|].
  simpl. destruct (force_round_robin w); [reflexivity|].
  destruct (lsize <=? visible_devices w); reflexivity.
Qed.

Lemma gpu_id_verdict w s1 s2 :
  verdict_of (get_reasonable_default_gpu_id w s1)
  = verdict_of (get_reasonable_default_gpu_id w s2).
Proof.
  rewrite !gpu_id_cases.
  destruct (force_device_zero w); [reflexivity|].
  destruct (guess_local_rank w) as [lrank|]; [|reflexivity].
  destruct (guess_local_size w) as [lsize|]; [|reflexivity].
  destruct (lrank <? 0); [reflexivity|].
  destruct (lsize <? 0); [reflexivity|].
  cbv zeta. destruct (force_round_robin w).
  - unfold eval. destruct (CInt.rem lrank (visible_devices w)); reflexivity.
  - destruct (lsize <=? visible_devices w); reflexivity.
Qed.

Lemma gpu_id_any_state w s d s' s0 :
  get_reasonable_default_gpu_id w s = Ok d s' ->
  exists s0', get_reasonable_default_gpu_id w s0 = Ok d s0'.
Proof.
  intros H. pose proof (gpu_id_verdict w s s0) as V. rewrite H in V.
  destruct (get_reasonable_default_gpu_id w s0) as [d0 s0'| |];
    simpl in V; try discriminate.
  inversion V. eauto.
Qed.

(** X2. Every device id the binding heuristic returns is a non-negative
    int: the -1 written after the call of [error] is never returned. When
    round-robin is forced and a device is visible, the id returned always
    names a visible device. *)
Theorem chosen_device_never_negative w s d s' :
  get_reasonable_default_gpu_id w s = Ok d s' ->
  0 <= d <= CInt.INT_MAX /\
  (force_round_robin w = true -> 0 < visible_devices w ->
   valid_device w d = true).
Proof.
  rewrite gpu_id_cases.
  assert (Zero : forall s0, Ok 0 s0 = Ok d s' ->
            0 <= d <= CInt.INT_MAX /\
            (force_round_robin w = true -> 0 < visible_devices w ->
             valid_device w d = true)).
  { intros s0 E. inversion E. subst. split; [unfold CInt.INT_MAX; lia|].
    intros _ Hn. unfold valid_device.
    destruct (Z.ltb_spec 0 (visible_devices w)); [reflexivity | lia]. }
  destruct (force_device_zero w); [apply Zero|].
  destruct (guess_local_rank w) as [lrank|] eqn:Hrank; [|discriminate].
  destruct (guess_local_size w) as [lsize|]; [|discriminate].
  destruct (Z.ltb_spec lrank 0) as [|Hr]; [apply Zero|].
  destruct (Z.ltb_spec lsize 0) as [|Hz]; [apply Zero|].
  cbv zeta.
  pose proof (guess_local_rank_range w lrank Hrank) as R.
  apply in_range_bounds in R.
  destruct (force_round_robin w).
  - unfold eval, CInt.rem.
    destruct (Z.eqb_spec (visible_devices w) 0) as [|Hn]; [discriminate|].
    destruct (CInt.in_range (lrank ÷ visible_devices w)); [|discriminate].
    intros E. inversion E. subst d.
    pose proof (Z.rem_nonneg lrank (visible_devices w) Hn Hr) as P.
    assert (Q : Z.rem lrank (visible_devices w) <= lrank).
    { destruct (Z.lt_ge_cases 0 (visible_devices w)) as [Hp | Hp].
      - rewrite Z.rem_mod_nonneg by lia.
        pose proof (Z.mod_le lrank (visible_devices w)). lia.
      - rewrite <- Z.rem_opp_r by assumption.
        rewrite Z.rem_mod_nonneg by lia.
        pose proof (Z.mod_le lrank (- visible_devices w)). lia. }
    split; [lia|]. intros _ Hp. unfold valid_device.
    rewrite Z.rem_mod_nonneg by lia.
    pose proof (Z.mod_pos_bound lrank (visible_devices w) Hp).
    destruct (Z.leb_spec 0 (lrank mod visible_devices w)),
             (Z.ltb_spec (lrank mod visible_devices w) (visible_devices w));
      simpl; try reflexivity; lia.
  - destruct (lsize <=? visible_devices w); [|discriminate].
    intros E. inversion E. subst. split; [lia | discriminate].
Qed.

Lemma chosen_device_never_negative_witness :
  0 <= 1 <= CInt.INT_MAX /\
  valid_device scenario_oversubscribed_rr 1 = true.
Proof.
  destruct (chosen_device_never_negative scenario_oversubscribed_rr
              initial_state 1 (with_call HipGetDeviceCount initial_state))
    as [Hr Hv].
  - vm_compute. reflexivity.
  - split; [exact Hr|]. apply Hv; [reflexivity | vm_compute; reflexivity].
Defined.

(** X3. The outcome of the binding heuristic depends on the environment
    and the visible devices only, not on the state of the runtime: from
    any two states it returns the same device, or dies in both, or is
    undefined in both. When it returns it has changed neither the
    [initialized_] flag nor the active device. *)
Theorem binding_heuristic_ignores_state w s1 s2 :
  verdict_of (get_reasonable_default_gpu_id w s1)
  = verdict_of (get_reasonable_default_gpu_id w s2) /\
  (forall d s', get_reasonable_default_gpu_id w s1 = Ok d s' ->
                initialized_ s' = initialized_ s1 /\
                active_device s' = active_device s1).
Proof.
  split; [apply gpu_id_verdict|].
  intros d s' H. destruct (gpu_id_frame _ _ _ _ H) as (Hf & Hd & _). auto.
Qed.

Lemma binding_heuristic_ignores_state_witness :
  verdict_of (get_reasonable_default_gpu_id (scenario_slurm 4) initial_state)
  = verdict_of (get_reasonable_default_gpu_id (scenario_slurm 4) slurm_bound_state) /\
  active_device (with_call HipGetDeviceCount initial_state) = 0.
Proof.
  destruct (binding_heuristic_ignores_state (scenario_slurm 4)
              initial_state slurm_bound_state) as [Hv Hf].
  split; [exact Hv|].
  apply (Hf 2 (with_call HipGetDeviceCount initial_state)).
  vm_compute. reflexivity.
Defined.

(** X4. Forcing round-robin removes the oversubscription error: with
    H2_SELECT_DEVICE_RR truthy, H2_SELECT_DEVICE_0 not truthy, a local rank
    and a local size guessed and at least one visible device, a first
    [init_runtime] returns with the process bound to [lrank mod ngpus],
    however many local ranks there are. *)
Theorem round_robin_never_oversubscribes w s lrank lsize :
  force_device_zero w = false -> force_round_robin w = true ->
  guess_local_rank w = Some lrank -> guess_local_size w = Some lsize ->
  0 <= lrank -> 0 <= lsize -> 0 < visible_devices w ->
  initialized_ s = false ->
  exists s', init_runtime w s = Ok tt s' /\
             initialized_ s' = true /\
             active_device s' = lrank mod visible_devices w /\
             0 <= active_device s' < visible_devices w.
Proof.
  intros H0 Hrr Hrank Hsize Hr Hz Hn Hs.
  pose proof (Z.mod_pos_bound lrank (visible_devices w) Hn) as B.
  eexists. split.
  - eapply init_runtime_binds; [assumption | |].
    + apply (gpu_id_round_robin w _ lrank lsize); assumption.
    + unfold valid_device.
      destruct (Z.leb_spec 0 (lrank mod visible_devices w)),
               (Z.ltb_spec (lrank mod visible_devices w) (visible_devices w));
        simpl; try reflexivity; lia.
  - simpl. repeat split; lia.
Qed.

Lemma round_robin_never_oversubscribes_witness :
  exists s', init_runtime scenario_oversubscribed_rr initial_state = Ok tt s' /\
             active_device s' = 1.
Proof.
  destruct (round_robin_never_oversubscribes scenario_oversubscribed_rr
              initial_state 3 8) as (s' & E & _ & Hd & _);
    try solve [vm_compute; reflexivity | lia | vm_compute; discriminate].
  exists s'. split; [exact E | exact Hd].
Defined.

(** X5. Without a usable local rank (no rank variable, or a negative
    value), with H2_SELECT_DEVICE_0 not truthy and at least one device
    visible, a first [init_runtime] binds device 0 after the local-rank
    warning, whether or not round-robin is forced and whatever local size
    was guessed; the local-size warning is not logged. *)
Theorem unknown_rank_binds_device_0 w s lrank lsize :
  force_device_zero w = false ->
  guess_local_rank w = Some lrank -> guess_local_size w = Some lsize ->
  lrank < 0 ->
  0 < visible_devices w ->
  initialized_ s = false ->
  warn_size ∉ log s ->
  exists s', init_runtime w s = Ok tt s' /\
             active_device s' = 0 /\
             warn_rank ∈ log s' /\
             warn_size ∉ log s'.
Proof.
  intros H0 Hrank Hsize Hneg Hn Hs Hlog.
  eexists. split.
  - eapply init_runtime_binds; [assumption | |].
    + apply (gpu_id_no_rank w _ lrank lsize); assumption.
    + unfold valid_device.
      destruct (Z.ltb_spec 0 (visible_devices w)); [reflexivity | lia].
  - simpl. split; [reflexivity|].
    rewrite !elem_of_app, !list_elem_of_singleton.
    split; [unfold warn_rank; tauto|].
    unfold warn_size, gpu_info_entry, setting_entry, warn_rank in *.
    intros [[[[[H | H] | H] | H] | H] | H];
      solve [contradiction | discriminate].
Qed.

Lemma unknown_rank_binds_device_0_witness :
  exists s', init_runtime scenario_bare initial_state = Ok tt s' /\
             active_device s' = 0 /\
             warn_rank ∈ log s'.
Proof.
  destruct (unknown_rank_binds_device_0 scenario_bare initial_state (-1) (-1))
    as (s' & E & Hd & Hw & _);
    try solve [vm_compute; reflexivity | lia].
  - simpl. apply not_elem_of_nil.
  - exists s'. auto.
Defined.

(** X6. A FLUX_JOB_NNODES that reads as 0 next to a FLUX_JOB_SIZE makes
    the local-size probe divide by zero: the probe and, with it, the
    binding heuristic have no defined behaviour, whatever else is set;
    only a truthy H2_SELECT_DEVICE_0, which is tested before any probe
    runs, still gives device 0. *)
Theorem zero_flux_nodes_is_undefined w s js nn :
  environ w !! "FLUX_JOB_SIZE"%string = Some js ->
  environ w !! "FLUX_JOB_NNODES"%string = Some nn ->
  atoi nn = Some 0 ->
  guess_local_size w = None /\
  (force_device_zero w = false ->
   get_reasonable_default_gpu_id w s = Undefined /\
   init_runtime w (with_flag false s) = Undefined) /\
  (force_device_zero w = true ->
   get_reasonable_default_gpu_id w s = Ok 0 s).
Proof.
  intros Hjs Hnn Hzero.
  assert (Hsize : guess_local_size w = None).
  { unfold guess_local_size, getenv. rewrite Hjs, Hnn, Hzero. simpl.
    destruct (atoi js) as [j|]; [|reflexivity]. simpl.
    destruct (CInt.add j 0) as [a|]; [|reflexivity]. simpl.
    destruct (CInt.sub a 1) as [b|]; reflexivity. }
  split; [exact Hsize|]. split.
  - intros H0.
    assert (Hid : forall s0, get_reasonable_default_gpu_id w s0 = Undefined).
    { intros s0. rewrite gpu_id_cases, H0, Hsize.
      destruct (guess_local_rank w); reflexivity. }
    split; [apply Hid|].
    rewrite init_runtime_first by reflexivity.
    unfold set_reasonable_default_gpu. cbv [mbind M_bind].
    rewrite Hid. reflexivity.
  - intros H0. apply gpu_id_force_zero, H0.
Qed.

Lemma zero_flux_nodes_is_undefined_witness :
  get_reasonable_default_gpu_id scenario_flux_no_nodes initial_state = Undefined /\
  get_reasonable_default_gpu_id scenario_flux_no_nodes_forced initial_state
    = Ok 0 initial_state.
Proof.
  split.
  - apply (proj1 (proj2 (zero_flux_nodes_is_undefined scenario_flux_no_nodes
                           initial_state "8" "0"
                           ltac:(vm_compute; reflexivity)
                           ltac:(vm_compute; reflexivity)
                           ltac:(vm_compute; reflexivity)))).
    vm_compute. reflexivity.
  - apply (proj2 (proj2 (zero_flux_nodes_is_undefined
                           scenario_flux_no_nodes_forced
                           initial_state "8" "0"
                           ltac:(vm_compute; reflexivity)
                           ltac:(vm_compute; reflexivity)
                           ltac:(vm_compute; reflexivity)))).
    vm_compute. reflexivity.
Defined.

(** *** The local size of a flux job *)

Lemma flux_size_value w js nn j n :
  environ w !! "FLUX_JOB_SIZE"%string = Some js ->
  environ w !! "FLUX_JOB_NNODES"%string = Some nn ->
  atoi js = Some j -> atoi nn = Some n ->
  0 < j -> 0 < n -> j + n <= CInt.INT_MAX ->
  guess_local_size w = Some ((j + n - 1) / n).
Proof.
  intros Hjs Hnn Hj Hn Hjpos Hnpos Hsum.
  pose proof (atoi_range _ _ Hj) as Rj. pose proof (atoi_range _ _ Hn) as Rn.
  apply in_range_bounds in Rj, Rn.
  unfold CInt.INT_MIN, CInt.INT_MAX in *.
  unfold guess_local_size, getenv. rewrite Hjs, Hnn, Hj, Hn. simpl.
  unfold CInt.add. rewrite checked_in_range
    by (apply in_range_bounds; unfold CInt.INT_MIN, CInt.INT_MAX; lia).
  simpl. unfold CInt.sub. rewrite checked_in_range
    by (apply in_range_bounds; unfold CInt.INT_MIN, CInt.INT_MAX; lia).
  simpl. unfold CInt.div.
  destruct (Z.eqb_spec n 0); [lia|].
  rewrite Z.quot_div_nonneg by lia.
  assert (0 <= (j + n - 1) / n) by (apply Z.div_pos; lia).
  assert ((j + n - 1) / n <= j + n - 1) by (apply Z.div_le_upper_bound; nia).
  rewrite checked_in_range
    by (apply in_range_bounds; unfold CInt.INT_MIN, CInt.INT_MAX; lia).
  reflexivity.
Qed.

(** X7. For a flux job of [j] tasks on [n] nodes (both positive, the sum
    within int) the local size guessed is the least number of slots per
    node that accommodates the job: [k] with [j <= k * n] and
    [(k - 1) * n < j]; it lies between 1 and [j]. *)
Theorem flux_local_size_is_least_cover w js nn j n :
  environ w !! "FLUX_JOB_SIZE"%string = Some js ->
  environ w !! "FLUX_JOB_NNODES"%string = Some nn ->
  atoi js = Some j -> atoi nn = Some n ->
  0 < j -> 0 < n -> j + n <= CInt.INT_MAX ->
  exists k, guess_local_size w = Some k /\
            1 <= k <= j /\ j <= k * n /\ (k - 1) * n < j.
Proof.
  intros Hjs Hnn Hj Hn Hjpos Hnpos Hsum.
  exists ((j + n - 1) / n). split; [eapply flux_size_value; eassumption|].
  pose proof (Z.div_mod (j + n - 1) n ltac:(lia)) as E.
  pose proof (Z.mod_pos_bound (j + n - 1) n Hnpos) as B.
  set (k := (j + n - 1) / n) in *. set (r := (j + n - 1) mod n) in *.
  assert (Hcover : j <= k * n) by nia.
  assert (Hleast : (k - 1) * n < j) by nia.
  repeat split; try assumption; nia.
Qed.

Lemma flux_local_size_is_least_cover_witness :
  exists k, guess_local_size scenario_flux = Some k /\
            1 <= k <= 10 /\ 10 <= k * 4 /\ (k - 1) * 4 < 10.
Proof.
  apply (flux_local_size_is_least_cover scenario_flux "10" "4" 10 4);
    solve [vm_compute; reflexivity | lia | vm_compute; discriminate].
Defined.

(** *** Finalising and initialising again *)

Lemma finalize_runtime_run s :
  finalize_runtime s =
    Ok tt (if initialized_ s
           then with_flag false (with_log finalized_entry s)
           else s).
Proof.
  unfold finalize_runtime. run. destruct (initialized_ s); reflexivity.
Qed.

(** X8. [finalize_runtime] always returns and leaves the runtime
    finalized; it touches neither the active device nor the driver. On a
    runtime that is not initialized it changes nothing at all and logs
    nothing, so finalizing twice is finalizing once; otherwise it logs
    exactly one line. *)
Theorem finalize_runtime_idempotent s :
  exists s1,
    finalize_runtime s = Ok tt s1 /\
    initialized_ s1 = false /\
    active_device s1 = active_device s /\
    driver_trace s1 = driver_trace s /\
    log s1 = (if initialized_ s then log s ++ [finalized_entry] else log s) /\
    (initialized_ s = false -> s1 = s) /\
    finalize_runtime s1 = Ok tt s1 /\
    runtime_is_finalized s1 = Ok true s1 /\
    runtime_is_initialized s1 = Ok false s1.
Proof.
  eexists. split; [apply finalize_runtime_run|].
  rewrite finalize_runtime_run.
  unfold runtime_is_finalized, runtime_is_initialized. run.
  destruct (initialized_ s) eqn:E; simpl; rewrite ?E;
    repeat split; try reflexivity; try discriminate.
Qed.

Lemma finalize_runtime_idempotent_witness :
  finalize_runtime initial_state = Ok tt initial_state.
Proof.
  destruct (finalize_runtime_idempotent initial_state)
    as (s1 & E & _ & _ & _ & _ & Hsame & _).
  rewrite (Hsame eq_refl) in E. exact E.
Defined.

(** X9. Finalising does not undo the binding, and initialising again
    redoes it: after a first [init_runtime] that returned and a
    [finalize_runtime], a further [init_runtime] returns too, it
    initialises the driver and binds a device once more, and the device it
    binds is the one bound the first time. *)
Theorem reinitialisation_rebinds_same_device w s s1 :
  initialized_ s = false ->
  init_runtime w s = Ok tt s1 ->
  exists s2 s3,
    finalize_runtime s1 = Ok tt s2 /\
    active_device s2 = active_device s1 /\
    init_runtime w s2 = Ok tt s3 /\
    initialized_ s3 = true /\
    active_device s3 = active_device s1 /\
    count_calls is_init_call (driver_trace s3)
      = S (count_calls is_init_call (driver_trace s1)) /\
    count_calls is_bind_call (driver_trace s3)
      = S (count_calls is_bind_call (driver_trace s1)).
Proof.
  intros Hs Hrun.
  destruct (init_runtime_first_inv w s s1 Hs Hrun) as (d & s' & Hid & Hv & ->).
  match goal with
  | |- context [finalize_runtime ?s1] =>
      set (s2 := with_flag false (with_log finalized_entry s1))
  end.
  destruct (gpu_id_any_state w _ d s' (binding_entry w s2) Hid) as (s2' & Hid2).
  destruct (gpu_id_frame _ _ _ _ Hid2) as (_ & _ & Htr).
  exists s2. eexists. split; [apply finalize_runtime_run|].
  split; [reflexivity|].
  split; [apply (init_runtime_binds w s2 d s2'); [reflexivity | exact Hid2 | exact Hv]|].
  simpl. split; [reflexivity|]. split; [reflexivity|].
  destruct Htr as [Htr | Htr]; rewrite Htr; simpl;
    rewrite <- ?app_assoc, !count_calls_app; simpl; split; lia.
Qed.

Lemma reinitialisation_rebinds_same_device_witness :
  exists s3,
    init_runtime (scenario_slurm 4) finalized_state = Ok tt s3 /\
    active_device s3 = 2 /\
    count_calls is_bind_call (driver_trace s3) = 2%nat.
Proof.
  destruct (reinitialisation_rebinds_same_device (scenario_slurm 4)
              initial_state slurm_bound_state)
    as (s2 & s3 & E2 & _ & E3 & _ & Hd & _ & Hb).
  - reflexivity.
  - vm_compute. reflexivity.
  - assert (s2 = finalized_state) as ->.
    { vm_compute in E2. inversion E2. reflexivity. }
    exists s3. split; [exact E3|]. split; [exact Hd | exact Hb].
Defined.

(** X21. Once the runtime is initialized, [init_runtime] no longer looks
    at the environment: called on an initialized runtime whose active
    device is visible, it behaves the same under any other environment
    (the devices being the same), so changing H2_SELECT_DEVICE_0 or the
    rank variables after the first call rebinds nothing. *)
Theorem initialized_runtime_ignores_environment w w' s :
  initialized_ s = true ->
  valid_device w (active_device s) = true ->
  visible_devices w' = visible_devices w ->
  props_name w' = props_name w ->
  props_pciBusID w' = props_pciBusID w ->
  init_runtime w' s = init_runtime w s /\
  bound_device (init_runtime w' s) = Some (active_device s).
Proof.
  intros Hi Hv Hn Hname Hpci.
  assert (Hv' : valid_device w' (active_device s) = true)
    by (unfold valid_device in *; rewrite Hn; exact Hv).
  rewrite (init_runtime_again w s Hi Hv), (init_runtime_again w' s Hi Hv').
  unfold gpu_info_entry. rewrite Hname, Hpci. split; reflexivity.
Qed.

Lemma initialized_runtime_ignores_environment_witness :
  init_runtime scenario_force_zero slurm_bound_state
  = init_runtime (scenario_slurm 4) slurm_bound_state /\
  bound_device (init_runtime scenario_force_zero slurm_bound_state) = Some 2.
Proof.
  apply (initialized_runtime_ignores_environment
           (scenario_slurm 4) scenario_force_zero slurm_bound_state);
    reflexivity.
Defined.

End RuntimeLaws.

(** * Properties of the hostname flag *)

Module HostnameLaws.
Import Hostname.

Lemma find_le value range : (find value range <= List.length range)%nat.
Proof.
  induction range as [|c rest IH]; simpl; [lia|].
  destruct (Ascii.eqb c value); simpl; lia.
Qed.

Lemma find_prefix_free value range :
  value ∉ take (find value range) range.
Proof.
  induction range as [|c rest IH]; simpl; [apply not_elem_of_nil|].
  destruct (Ascii.eqb_spec c value) as [|Hne]; simpl; [apply not_elem_of_nil|].
  rewrite not_elem_of_cons. split; [congruence | exact IH].
Qed.

Lemma find_stops_at value range :
  (find value range < List.length range)%nat ->
  range !! find value range = Some value.
Proof.
  induction range as [|c rest IH]; simpl; [lia|].
  destruct (Ascii.eqb_spec c value) as [->|Hne]; simpl; [reflexivity|].
  intros H. apply IH. lia.
Qed.

Lemma find_first value front rest :
  value ∉ front ->
  find value (front ++ value :: rest) = List.length front.
Proof.
  induction front as [|c front IH]; simpl; intros Hfree.
  - rewrite Ascii.eqb_refl. reflexivity.
  - apply not_elem_of_cons in Hfree as [Hne Hfree].
    destruct (Ascii.eqb_spec c value) as [|_]; [congruence|].
    now rewrite IH.
Qed.

Lemma length_string_of_list l :
  String.length (string_of_list_ascii l) = List.length l.
Proof. induction l as [|c l IH]; simpl; [reflexivity | now rewrite IH]. Qed.

Lemma length_string_append a b :
  String.length (a ++ b)%string = (String.length a + String.length b)%nat.
Proof. induction a as [|c a IH]; simpl; [reflexivity | now rewrite IH]. Qed.

(** X10. A hostname reported NUL-terminated is returned exactly: for a
    name without a NUL that is shorter than the buffer, [get_hostname_raw]
    returns the name, whatever bytes follow the terminator in the
    buffer. *)
Theorem get_hostname_raw_round_trip name garbage :
  Ascii.zero ∉ list_ascii_of_string name ->
  (String.length name < BUF_SIZE)%nat ->
  get_hostname_raw (host_reporting name garbage) = Return name.
Proof.
  intros Hfree Hlen. unfold get_hostname_raw, host_reporting. simpl.
  set (ln := list_ascii_of_string name) in *.
  assert (Hl : List.length ln = String.length name).
  { unfold ln. rewrite <- (string_of_list_ascii_of_string name) at 2.
    symmetry. apply length_string_of_list. }
  rewrite take_app_ge by lia.
  destruct (BUF_SIZE - List.length ln)%nat as [|k] eqn:Hk; [lia|].
  simpl. rewrite find_first by assumption.
  rewrite take_app_le by lia. rewrite take_ge by lia.
  unfold ln. rewrite string_of_list_ascii_of_string. reflexivity.
Qed.

Lemma get_hostname_raw_round_trip_witness :
  get_hostname_raw (host_reporting "tioga12" (list_ascii_of_string "xy"))
  = Return "tioga12"%string.
Proof.
  apply get_hostname_raw_round_trip.
  - simpl. rewrite !not_elem_of_cons.
    repeat split; try discriminate. apply not_elem_of_nil.
  - vm_compute. lia.
Defined.

(** X11. Whatever the buffer holds after a successful [gethostname], the
    name returned is the longest NUL-free prefix of the buffer's 1024
    bytes: it has at most 1024 characters and none is NUL, it is a prefix
    of the buffer, and when it is shorter than the range scanned the byte
    after it is the NUL. An unterminated buffer gives all 1024 bytes and
    nothing beyond them is read. A failing [gethostname] throws whatever
    the buffer holds. *)
Theorem get_hostname_raw_longest_prefix os :
  (status os = 0 ->
   exists hostname,
     get_hostname_raw os = Return hostname /\
     (String.length hostname <= BUF_SIZE)%nat /\
     (Ascii.zero ∉ list_ascii_of_string hostname) /\
     list_ascii_of_string hostname
       = take (String.length hostname) (buf os) /\
     ((String.length hostname < BUF_SIZE)%nat ->
      (String.length hostname < List.length (buf os))%nat ->
      buf os !! String.length hostname = Some Ascii.zero)) /\
  (status os <> 0 ->
   get_hostname_raw os = Throw (runtime_error "gethostname failed.")).
Proof.
  unfold get_hostname_raw. split.
  - intros ->. simpl. eexists. split; [reflexivity|].
    set (range := take BUF_SIZE (buf os)).
    pose proof (find_le Ascii.zero range) as Hle.
    assert (Hrange : (List.length range <= BUF_SIZE)%nat)
      by (unfold range; rewrite length_take; lia).
    rewrite length_string_of_list, list_ascii_of_string_of_list_ascii.
    rewrite length_take.
    replace (find zero range `min` List.length range)%nat
      with (find Ascii.zero range) by lia.
    split; [lia|]. split; [apply find_prefix_free|]. split.
    + unfold range. rewrite take_take. f_equal. unfold range in Hle.
      rewrite length_take in Hle. lia.
    + intros Hshort Hbuf.
      assert (Hin : (find Ascii.zero range < List.length range)%nat).
      { unfold range in *. rewrite length_take in *. lia. }
      pose proof (find_stops_at _ _ Hin) as Hz.
      unfold range in *. rewrite length_take in *.
      rewrite lookup_take_lt in Hz by lia. exact Hz.
  - intros Hs. destruct (Z.eqb_spec (status os) 0); [contradiction|].
    reflexivity.
Qed.

Lemma get_hostname_raw_longest_prefix_witness :
  (exists hostname,
     get_hostname_raw (host_reporting "tioga12" []) = Return hostname /\
     (String.length hostname <= BUF_SIZE)%nat) /\
  get_hostname_raw (host_failing (list_ascii_of_string "tioga12"))
  = Throw (runtime_error "gethostname failed.").
Proof.
  split.
  - destruct (proj1 (get_hostname_raw_longest_prefix (host_reporting "tioga12" []))
                eq_refl) as (h & E & Hl & _).
    exists h. split; [exact E | exact Hl].
  - apply (proj2 (get_hostname_raw_longest_prefix
                    (host_failing (list_ascii_of_string "tioga12")))).
    discriminate.
Defined.

Lemma get_hostname_is_cached_aux os cache hostname cache' :
  get_hostname os cache = (Return hostname, cache') ->
  cache' = Some hostname /\
  (forall os', get_hostname os' cache' = (Return hostname, cache')).
Proof.
  intros H. unfold get_hostname in H. destruct cache as [h0|].
  - inversion H. subst. split; reflexivity.
  - destruct (get_hostname_raw os); inversion H. subst. split; reflexivity.
Qed.

(** X12. The hostname is looked up once: after a call of [get_hostname]
    that returned, every later call returns the same name without
    consulting the system, even if the system would now report another
    name or fail. A lookup that throws is not remembered: the next call
    asks the system again. *)
Theorem get_hostname_is_cached os cache hostname cache' :
  get_hostname os cache = (Return hostname, cache') ->
  cache' = Some hostname /\
  (forall os', get_hostname os' cache' = (Return hostname, cache')) /\
  (forall failing os',
     status failing <> 0 ->
     get_hostname failing None
       = (Throw (runtime_error "gethostname failed."), None) /\
     fst (get_hostname os' (snd (get_hostname failing None)))
       = get_hostname_raw os').
Proof.
  intros H. destruct (get_hostname_is_cached_aux _ _ _ _ H) as [-> Hlater].
  split; [reflexivity|]. split; [exact Hlater|].
  intros failing os' Hs.
  assert (E : get_hostname failing None
              = (Throw (runtime_error "gethostname failed."), None)).
  { unfold get_hostname, get_hostname_raw.
    destruct (Z.eqb_spec (status failing) 0); [contradiction | reflexivity]. }
  rewrite E. split; [reflexivity|]. simpl.
  unfold get_hostname. destruct (get_hostname_raw os'); reflexivity.
Qed.

Lemma get_hostname_is_cached_witness :
  get_hostname (host_reporting "login1" []) (Some "tioga12"%string)
  = (Return "tioga12"%string, Some "tioga12"%string).
Proof.
  apply (proj1 (proj2 (get_hostname_is_cached (host_reporting "tioga12" [])
                         None "tioga12" (Some "tioga12"%string) eq_refl))).
Defined.

(** X13. [HostnameFlag::format] only ever appends: when it returns, the
    destination is its former content followed by the hostname, whatever
    the message and the time are, and the hostname is then cached, so a
    second formatting, of any message on any system state, appends the
    same name again. When the lookup throws, [format] throws and nothing
    is cached. *)
Theorem format_appends_hostname {Msg Tm} (msg : Msg) (tm : Tm) os cache dest :
  (forall dest' cache',
     format msg tm os cache dest = (Return dest', cache') ->
     exists hostname,
       dest' = (dest ++ hostname)%string /\
       cache' = Some hostname /\
       String.length dest' = (String.length dest + String.length hostname)%nat /\
       forall (msg2 : Msg) (tm2 : Tm) os2,
         format msg2 tm2 os2 cache' dest'
         = (Return ((dest ++ hostname) ++ hostname)%string, cache')) /\
  (forall e cache',
     format msg tm os cache dest = (Throw e, cache') ->
     cache = None /\ cache' = None /\ status os <> 0).
Proof.
  unfold format. split.
  - intros dest' cache' H.
    destruct (get_hostname os cache) as [[h|e] c] eqn:E; inversion H; subst.
    exists h. destruct (get_hostname_is_cached_aux os cache h cache' E) as [-> Hlater].
    split; [reflexivity|]. split; [reflexivity|].
    split; [apply length_string_append|].
    intros msg2 tm2 os2. rewrite Hlater. reflexivity.
  - intros e cache' H.
    destruct (get_hostname os cache) as [[h|e0] c] eqn:E; inversion H; subst.
    unfold get_hostname in E. destruct cache as [h0|]; [discriminate|].
    unfold get_hostname_raw in E.
    destruct (Z.eqb_spec (status os) 0) as [Hz|Hz]; simpl in E; [discriminate|].
    inversion E. auto.
Qed.

Lemma format_appends_hostname_witness :
  format tt tt (host_reporting "tioga12" []) None "[info] "
  = (Return "[info] tioga12"%string, Some "tioga12"%string).
Proof.
  destruct (proj1 (format_appends_hostname tt tt (host_reporting "tioga12" [])
                     None "[info] ")
              "[info] tioga12"%string (Some "tioga12"%string) eq_refl)
    as (h & _ & _ & _ & _).
  reflexivity.
Defined.

End HostnameLaws.

(** * Further properties of the CPU tensor *)

Module TensorLaws.
Import TensorCPU TensorValues TensorFacts.

(** *** Views and constness *)

(** X14. [view] never looks at the view type of the tensor it is called
    on: the view of any tensor, a const view included, is a mutable view,
    and [data] on it returns a read-write pointer into the same buffer.
    So [data] throws on a const view but succeeds on a view taken of
    it. *)
Theorem view_of_const_view_is_mutable {D} (t : @Tensor D) coords :
  tensor_view_type (view_coords t coords) = ViewType.Mutable /\
  (exists p, data (view_coords t coords) = Return p /\
             pointer_access p = ReadWrite /\
             fst <$> address p = raw_buffer (tensor_memory t)) /\
  data (view t) = Return (memory_data ReadWrite (tensor_memory t)) /\
  (tensor_view_type t = ViewType.Const ->
   data t = Throw (H2Exception "Cannot access non-const buffer of const view") /\
   exists p, data (view t) = Return p /\ const_data t = Return
     {| pointer_access := ReadOnly; address := address p |}).
Proof.
  split; [reflexivity|]. split; [|split].
  - eexists. split; [reflexivity|]. split; [reflexivity|].
    simpl. destruct (raw_buffer (tensor_memory t)); reflexivity.
  - rewrite view_full_range. reflexivity.
  - intros Hc. split; [unfold data; rewrite Hc; reflexivity|].
    rewrite view_full_range. eexists. split; reflexivity.
Qed.

Lemma view_of_const_view_is_mutable_witness :
  data const_alias
    = Throw (H2Exception "Cannot access non-const buffer of const view") /\
  exists p, data (view const_alias) = Return p /\
            const_data const_alias
            = Return {| pointer_access := ReadOnly; address := address p |}.
Proof.
  apply (proj2 (proj2 (proj2 (view_of_const_view_is_mutable const_alias [])))).
  reflexivity.
Defined.

(** X15. [const_view] always gives a read-only alias: on the const view
    of any tensor, an owner included, [data] throws, while [const_data]
    returns the very pointer [const_data] returns on the tensor itself;
    the const view has the shape, dimension types and strides of the
    tensor. *)
Theorem const_view_is_read_only {D} (t : @Tensor D) :
  data (const_view t)
    = Throw (H2Exception "Cannot access non-const buffer of const view") /\
  (forall coords,
     data (const_view_coords t coords)
     = Throw (H2Exception "Cannot access non-const buffer of const view")) /\
  const_data (const_view t) = const_data t /\
  tensor_shape (const_view t) = tensor_shape t /\
  tensor_dim_types (const_view t) = tensor_dim_types t /\
  strides (const_view t) = strides t /\
  is_view (const_view t) = true.
Proof.
  unfold const_view, const_view_coords, Tensor_view_of, StridedMemory_view,
    const_data, data, memory_data, strides, is_view. simpl.
  rewrite !filter_by_trivial_all, !get_range_shape_all, get_range_start_all.
  rewrite Nat.add_0_r. repeat split.
Qed.

(** X16. [view] is idempotent and transparent to contiguity: the view of
    a view is that view, a view is contiguous exactly when the tensor is,
    and what [contiguous] returns is a fixed point of [contiguous]. *)
Theorem view_is_idempotent {D} (t : @Tensor D) :
  view (view t) = view t /\
  const_view (view t) = const_view t /\
  is_contiguous (view t) = is_contiguous t /\
  (forall v, contiguous t = Return v -> contiguous v = Return v).
Proof.
  assert (Hvv : view (view t) = view t) by (rewrite !view_full_range; reflexivity).
  assert (Hc : is_contiguous (view t) = is_contiguous t)
    by (rewrite view_full_range; reflexivity).
  split; [exact Hvv|]. split; [|split; [exact Hc|]].
  - unfold const_view, const_view_coords, Tensor_view_of, StridedMemory_view.
    rewrite view_full_range. simpl.
    rewrite !filter_by_trivial_all, !get_range_shape_all, !get_range_start_all.
    reflexivity.
  - intros v. unfold contiguous.
    destruct (is_contiguous t) eqn:E; [|discriminate].
    intros H. inversion H. subst v. rewrite Hc, Hvv. reflexivity.
Qed.

Lemma view_is_idempotent_witness :
  contiguous (view const_alias) = Return (view const_alias).
Proof.
  apply (proj2 (proj2 (proj2 (view_is_idempotent const_alias)))).
  reflexivity.
Defined.

(** *** Emptying *)

Lemma empty_run {T D} (t : @Tensor D) (h : @heap T) :
  empty t h = (null_tensor, StridedMemory_destroy (tensor_memory t) h).
Proof.
  unfold empty, null_tensor, is_view.
  destruct (tensor_view_type t); reflexivity.
Qed.

(** X17. [empty] leaves any tensor, owner or view of either kind, a
    rank-0 tensor with [ViewType::None] on which [data] returns the null
    pointer without throwing, also when the tensor was a const view.
    Emptying is idempotent. A tensor that does not own its memory leaves
    every buffer as it is; an owner gives up its own buffer and no
    other. *)
Theorem empty_resets_and_is_idempotent {T D} (t : @Tensor D) (h : @heap T) :
  exists t1 h1,
    empty t h = (t1, h1) /\
    tensor_shape t1 = [] /\ tensor_dim_types t1 = [] /\
    tensor_view_type t1 = ViewType.None /\
    data t1 = Return {| pointer_access := ReadWrite; address := None |} /\
    empty t1 h1 = (t1, h1) /\
    (owns_buffer (tensor_memory t) = false -> h1 = h) /\
    (forall b, raw_buffer (tensor_memory t) <> Some b -> h1 !! b = h !! b) /\
    (forall b, owns_buffer (tensor_memory t) = true ->
               raw_buffer (tensor_memory t) = Some b -> h1 !! b = None).
Proof.
  do 2 eexists. split; [apply empty_run|].
  rewrite empty_run. unfold StridedMemory_destroy, heap in *. simpl.
  repeat split.
  - intros ->. reflexivity.
  - intros b Hb. destruct (owns_buffer (tensor_memory t)); [|reflexivity].
    destruct (raw_buffer (tensor_memory t)) as [b0|]; [|reflexivity].
    apply lookup_delete_ne. congruence.
  - intros b -> ->. apply lookup_delete_eq.
Qed.

Lemma empty_resets_and_is_idempotent_witness :
  snd (empty const_alias (snd owner_234)) = snd owner_234 /\
  snd (empty (fst owner_234) (snd owner_234)) !! 0%nat = None.
Proof.
  split.
  - destruct (empty_resets_and_is_idempotent const_alias (snd owner_234))
      as (t1 & h1 & E & _ & _ & _ & _ & _ & Hsame & _).
    rewrite E. simpl. apply Hsame. reflexivity.
  - destruct (empty_resets_and_is_idempotent (fst owner_234) (snd owner_234))
      as (t1 & h1 & E & _ & _ & _ & _ & _ & _ & _ & Hfree).
    rewrite E. simpl. apply Hfree; reflexivity.
Defined.

(** X18. An emptied tensor has rank 0, so the shape-only [resize] can
    only keep it empty: for every non-empty shape it throws the
    dimension-types error. The overload taking dimension types returns,
    and makes the tensor, a former view included, an owner of the new
    shape with a buffer of its own. *)
Theorem emptied_tensor_needs_dim_types {T D} (pad : D) (t : @Tensor D)
    (h : @heap T) (new_shape : list nat) (dts : list D) :
  new_shape <> [] ->
  resize pad (fst (empty t h)) new_shape (snd (empty t h))
    = Throw (H2Exception "Must provide dimension types to resize larger") /\
  exists t2 h2,
    resize_with_dim_types (fst (empty t h)) new_shape dts (snd (empty t h))
      = Return (t2, h2) /\
    is_view t2 = false /\
    tensor_shape t2 = new_shape /\
    tensor_dim_types t2 = dts /\
    owns_buffer (tensor_memory t2) = true /\
    is_contiguous t2 = true.
Proof.
  intros Hne. rewrite empty_run. simpl. split.
  - unfold resize. simpl. destruct new_shape; [contradiction | reflexivity].
  - unfold resize_with_dim_types. simpl. do 2 eexists.
    split; [reflexivity|]. simpl. repeat split.
    unfold is_contiguous, are_strides_contiguous, strides. simpl.
    apply bool_decide_eq_true. reflexivity.
Qed.

Lemma emptied_tensor_needs_dim_types_witness :
  resize Spatial (fst (empty strided_alias (∅ : @heap Z))) [3]%nat
    (snd (empty strided_alias (∅ : @heap Z)))
  = Throw (H2Exception "Must provide dimension types to resize larger").
Proof.
  apply (emptied_tensor_needs_dim_types Spatial strided_alias ∅ [3]%nat [Sample]).
  discriminate.
Defined.

(** *** The rank invariant *)

Lemma filtered_lengths_agree {A} coords (l : list A) (shape : list nat) :
  List.length l = List.length shape ->
  List.length (filter_by_trivial coords l)
  = List.length (get_range_shape coords shape).
Proof.
  revert l shape. induction coords as [|c cs IH]; intros l shape Hlen.
  - destruct l, shape; simpl in *; congruence.
  - destruct l as [|x xs], shape as [|d ds]; simpl in *; try congruence.
    destruct (is_trivial c); simpl; [apply IH | f_equal; apply IH]; lia.
Qed.

(** X19. One dimension type per dimension is an invariant of [empty],
    of [view] and [const_view] for every coordinate tuple, and of the
    shape-only [resize]; the [resize] taking dimension types stores them
    unchecked, and keeps the invariant exactly when it is given as many
    types as dimensions. *)
Theorem ranks_agree_is_kept {T D} (pad : D) (t : @Tensor D) (h : @heap T) :
  ranks_agree t ->
  ranks_agree (fst (empty t h)) /\
  (forall coords, ranks_agree (view_coords t coords) /\
                  ranks_agree (const_view_coords t coords)) /\
  (forall new_shape t' h',
     resize pad t new_shape h = Return (t', h') -> ranks_agree t') /\
  (forall new_shape dts t' h',
     resize_with_dim_types t new_shape dts h = Return (t', h') ->
     tensor_dim_types t' = dts /\
     (ranks_agree t' <-> List.length dts = List.length new_shape)).
Proof.
  unfold ranks_agree. intros Hinv. split; [rewrite empty_run; reflexivity|].
  split; [|split].
  - intros coords. simpl. split; apply filtered_lengths_agree, Hinv.
  - intros new_shape t' h'. unfold resize.
    destruct (is_view t); [discriminate|].
    destruct (Nat.ltb_spec (List.length (tensor_shape t)) (List.length new_shape));
      [discriminate|].
    simpl. intros E. inversion E. subst. simpl.
    unfold set_size. rewrite length_app, length_take, length_replicate. lia.
  - intros new_shape dts t' h'. unfold resize_with_dim_types.
    destruct (is_view t); [discriminate|].
    simpl. intros E. inversion E. subst. simpl. split; [reflexivity | tauto].
Qed.

Lemma ranks_agree_is_kept_witness :
  ranks_agree (view_coords (fst owner_234) [Range 1 2; ALL; Range 0 2]) /\
  tensor_shape (view_coords (fst owner_234) [Range 1 2; ALL; Range 0 2])
  = [3; 2]%nat.
Proof.
  split; [|reflexivity].
  apply (proj1 (proj2 (ranks_agree_is_kept Spatial (fst owner_234)
                         (snd owner_234) eq_refl))).
Defined.

(** *** Tensors over a buffer handed in *)

(** X20. A tensor constructed over an external buffer is a view and
    never becomes the owner of that buffer: both overloads of [resize]
    throw on it, and emptying it leaves every buffer in place. [data]
    hands back the buffer read-write when the tensor was constructed from
    a non-const pointer and throws when it was constructed from a const
    one; [const_data] returns the buffer for both. *)
Theorem external_buffer_is_never_owned {T D} (pad : D) buffer shape_
    (dts : list D) strides_ new_shape new_dts (h : @heap T) :
  let m := Tensor_of_buffer buffer shape_ dts strides_ in
  let c := Tensor_of_const_buffer buffer shape_ dts strides_ in
  (resize pad m new_shape h = Throw (H2Exception "Cannot resize a view") /\
   resize pad c new_shape h = Throw (H2Exception "Cannot resize a view") /\
   resize_with_dim_types m new_shape new_dts h
     = Throw (H2Exception "Cannot resize a view") /\
   resize_with_dim_types c new_shape new_dts h
     = Throw (H2Exception "Cannot resize a view")) /\
  (snd (empty m h) = h /\ snd (empty c h) = h) /\
  data m = Return {| pointer_access := ReadWrite; address := buffer |} /\
  data c = Throw (H2Exception "Cannot access non-const buffer of const view") /\
  const_data m = Return {| pointer_access := ReadOnly; address := buffer |} /\
  const_data c = Return {| pointer_access := ReadOnly; address := buffer |}.
Proof.
  cbv zeta. rewrite !empty_run.
  unfold data, const_data, memory_data, Tensor_of_buffer,
    Tensor_of_const_buffer, StridedMemory_of_buffer. simpl.
  destruct buffer as [[b o]|]; simpl; repeat split.
Qed.

End TensorLaws.
